(** * CassandraCQLLibrary: the connection registry and statement keywords

    A shallow embedding of [src/CassandraCQLLibrary.py] (class
    [CassandraCQLLibrary]) together with the two collaborators it drives:
    the Robot Framework [ConnectionCache] and the Cassandra driver.  The
    driver is an oracle that answers every call; each call is recorded in a
    trace, so that "the statement was forwarded" and "no driver call was
    made" are statements about the trace. *)

From stdpp Require Import base option list strings gmap pretty.
From Stdlib Require Import ZArith Lia.

Local Open Scope string_scope.
Local Open Scope list_scope.

(** ** Python values and exceptions *)

(** Column values of a row.  [py_str] is Python's [str] on them. *)
Inductive Value :=
| VNone
| VBool (b : bool)
| VInt (z : Z)
| VText (s : string).

Definition py_str (v : Value) : string :=
  match v with
  | VNone => "None"
  | VBool true => "True"
  | VBool false => "False"
  | VInt z => pretty z
  | VText s => s
  end.

(** A row of a result set, represented by its columns in order; the driver
    hands rows out as objects whose attributes are the column names. *)
Definition Row := list (string * Value).
Definition ResultSet := list Row.

(** [getattr(item, column)] on a row, for the names that can only be a
    column: the column of that name; [None] here is Python's
    [AttributeError].  The names [plain_column_name] excludes are found on
    every row object, column or not, and are not covered. *)
Fixpoint getattr (item : Row) (column : string) : option Value :=
  match item with
  | [] => None
  | (name, v) :: rest =>
      if String.eqb name column then Some v else getattr rest column
  end.

(** The driver hands rows out as named tuples.  Besides its columns such an
    object answers the names of its class: the tuple methods [count] and
    [index], and names that begin with an underscore ([_fields], [_asdict],
    [__class__], ...).  Every other name is a column or nothing. *)
Definition plain_column_name (column : string) : bool :=
  negb (String.prefix "_" column)
  && negb (String.eqb column "count")
  && negb (String.eqb column "index").

(** The exceptions that can travel through the library, by who raises them.
    [str(e)] is the message. *)
Inductive PyExc :=
| Exception (msg : string)            (* [raise Exception(...)] in the library *)
| RuntimeError (msg : string)         (* raised by the connection cache *)
| IndexError (msg : string)           (* list subscript out of range *)
| AttributeError (msg : string)       (* raised by [getattr] *)
| DriverError (cls msg : string).     (* raised inside a call of the driver *)

Definition str_exc (e : PyExc) : string :=
  match e with
  | Exception m | RuntimeError m | IndexError m | AttributeError m => m
  | DriverError _ m => m
  end.

(** ** The driver *)

Definition Session := nat.   (* identity of a [cassandra.cluster.Session] *)
Definition Future := nat.    (* identity of a [ResponseFuture] *)

Inductive PortArg :=
| PInt (p : Z)
| PStr (p : string).

Inductive DriverCall :=
| CConnect (host : string) (port : PortArg) (auth : option (string * string))
| CSetKeyspace (s : Session) (keyspace : string)
| CShutdown (s : Session)
| CExecute (s : Session) (statement : string) (timeout : option Z)
| CExecuteAsync (s : Session) (statement : string)
| CFutureResult (f : Future).

(** What a driver call does: it returns (with rows, for the calls that
    deliver a result set) or it raises. *)
Inductive Outcome :=
| Returns (rows : ResultSet)
| Fails (cls msg : string).

Record World := mkWorld {
  calls : list DriverCall;        (* every driver call so far, oldest first *)
  sessions_created : nat;
  futures_created : nat;
  shut_down : list Session;       (* sessions whose [shutdown()] returned *)
}.

Definition Driver := World -> DriverCall -> Outcome.

Definition world0 : World := mkWorld [] 0 0 [].

Definition log_call (c : DriverCall) (w : World) : World :=
  mkWorld (calls w ++ [c]) (sessions_created w) (futures_created w) (shut_down w).

Definition new_session (w : World) : World :=
  mkWorld (calls w) (S (sessions_created w)) (futures_created w) (shut_down w).

Definition new_future (w : World) : World :=
  mkWorld (calls w) (sessions_created w) (S (futures_created w)) (shut_down w).

Definition mark_shut_down (s : Session) (w : World) : World :=
  mkWorld (calls w) (sessions_created w) (futures_created w) (s :: shut_down w).

(** ** The library object *)

(** The value of [self._connection]: [None] from [__init__], a session from
    [connect_to_cassandra] and [switch_cassandra_connection], or what
    [close_all] of the cache returns, its "no connection" placeholder. *)
Inductive PyConn :=
| PyNone
| NoConnectionObj
| SessionRef (s : Session).

(** Truth value used by [if not self._connection]; the cache's placeholder
    is false, as the cache's own emptiness test is. *)
Definition truthy (c : PyConn) : bool :=
  match c with
  | SessionRef _ => true
  | PyNone | NoConnectionObj => false
  end.

(** Modelled from the spec: [robot.utils.ConnectionCache] is imported by the
    library and not defined under src/.  Section 4.1 gives its contract
    (register stores the handle, assigns the next sequential index,
    optionally binds the alias and makes the handle current; switch looks an
    entry up by index or alias; close_all tears every entry down, discards
    all entries and restarts the numbering at 1) and sections 4.1 and 9 its
    reference behaviour on a repeated alias (no guard: the last writer
    shadows the lookup) and on a failing teardown (the first failure is
    raised).  What the spec leaves open (an alias is tried before an index,
    the wording of the messages, the normalisation of alias keys) follows
    Robot Framework's class.  [current = None] stands for the cache's
    "no connection" placeholder. *)
Record ConnectionCache := mkCache {
  current : option Session;
  _connections : list Session;
  _aliases : gmap string nat;
}.

Record Self := mkSelf {
  _connection : PyConn;
  _cache : ConnectionCache;
}.

Record State := mkState {
  self : Self;
  world : World;
}.

(** [__init__] *)
Definition cache0 : ConnectionCache := mkCache None [] ∅.
Definition init : State := mkState (mkSelf PyNone cache0) world0.

Definition set_connection (c : PyConn) (st : State) : State :=
  mkState (mkSelf c (_cache (self st))) (world st).

Definition set_cache (k : ConnectionCache) (st : State) : State :=
  mkState (mkSelf (_connection (self st)) k) (world st).

Definition set_world (w : World) (st : State) : State :=
  mkState (self st) w.

(** ** A state-and-exception monad for the keywords *)

Inductive Res (A : Type) :=
| Ok (a : A)
| Raise (e : PyExc).
Arguments Ok {A} a.
Arguments Raise {A} e.

Definition M (A : Type) : Type := State -> Res A * State.

Definition ret {A} (a : A) : M A := fun st => (Ok a, st).
Definition raise {A} (e : PyExc) : M A := fun st => (Raise e, st).

Definition bind {A B} (m : M A) (f : A -> M B) : M B :=
  fun st =>
    match m st with
    | (Ok a, st') => f a st'
    | (Raise e, st') => (Raise e, st')
    end.

(** [try: m  except Exception as e: h e] *)
Definition try_except {A} (m : M A) (h : PyExc -> M A) : M A :=
  fun st =>
    match m st with
    | (Ok a, st') => (Ok a, st')
    | (Raise e, st') => h e st'
    end.

Definition get : M State := fun st => (Ok st, st).
Definition modify (f : State -> State) : M unit := fun st => (Ok tt, f st).

Declare Scope py_scope.
Delimit Scope py_scope with py.
Notation "'let*' x ':=' m 'in' k" := (bind m (fun x => k))
  (at level 10, x name, m at level 100, k at level 200) : py_scope.
Notation "'do' m 'then' k" := (bind m (fun _ => k))
  (at level 10, m at level 100, k at level 200) : py_scope.
Local Open Scope py_scope.

(** The cache entries of a state. *)
Definition entries (st : State) : list Session := _connections (_cache (self st)).

(** [st'] differs from [st] in the driver's world only, where no session
    disappeared. *)
Definition same_self (st st' : State) : Prop :=
  self st' = self st /\ sessions_created (world st) <= sessions_created (world st').

(** The states a test can leave the library in satisfy this: the entries are
    distinct sessions the driver created, the current one is an entry and is
    what [self._connection] holds, and every alias names an entry. *)
Record consistent (st : State) : Prop := mkConsistent {
  entries_nodup : NoDup (entries st);
  entries_created : forall s, s ∈ entries st -> s < sessions_created (world st);
  current_entry :
    match current (_cache (self st)) with
    | Some s => s ∈ entries st /\ _connection (self st) = SessionRef s
    | None => entries st = [] /\ truthy (_connection (self st)) = false
    end;
  aliases_bound :
    forall a i, _aliases (_cache (self st)) !! a = Some i ->
                1 <= i <= length (entries st);
}.

(** An error the library signals with its own [raise Exception(...)], as
    opposed to one that escapes from [getattr], the cache or the driver. *)
Definition raised_by_library (e : PyExc) : bool :=
  match e with
  | Exception _ => true
  | _ => false
  end.

Section Library.

(** The driver's behaviour, the key normalisation of the cache's alias
    dictionary, and Python's [int] on strings. *)
Variable drv : Driver.
Variable normalize : string -> string.
Variable py_int : string -> option Z.

(** One call of the driver: recorded, then answered by the oracle as it
    stood before the call. *)
Definition call (c : DriverCall) : M ResultSet :=
  fun st =>
    let w := world st in
    match drv w c with
    | Returns rows => (Ok rows, set_world (log_call c w) st)
    | Fails cls msg => (Raise (DriverError cls msg), set_world (log_call c w) st)
    end.

(** The same answer, as the exception or value the caller sees. *)
Definition answer (w : World) (c : DriverCall) : Res ResultSet :=
  match drv w c with
  | Returns rows => Ok rows
  | Fails cls msg => Raise (DriverError cls msg)
  end.

(** Lines 85-89 of [connect_to_cassandra] as one driver call: the auth
    provider, [int(port)], [Cluster(...)] and [cluster.connect()].  When it
    returns there is a new session.  A failure of [int(port)] on a port
    given as a string is one of the failures the oracle answers with; the
    call is logged all the same, so the log is exact for integer ports
    only. *)
Definition cluster_connect (host : string) (port : PortArg)
    (auth : option (string * string)) : M Session :=
  do call (CConnect host port auth) then
  let* st := get in
  do modify (fun st => set_world (new_session (world st)) st) then
  ret (sessions_created (world st)).

(** [session.shutdown()] *)
Definition session_shutdown (s : Session) : M unit :=
  do call (CShutdown s) then
  modify (fun st => set_world (mark_shut_down s (world st)) st).

(** [session.execute_async(statement)]: a new future. *)
Definition session_execute_async (s : Session) (statement : string) : M Future :=
  do call (CExecuteAsync s statement) then
  let* st := get in
  do modify (fun st => set_world (new_future (world st)) st) then
  ret (futures_created (world st)).

(** *** Methods of the connection cache *)

(** Modelled from the spec: [register(connection, alias)] of the cache.
    Append, bind the alias to the new index (overwriting an older binding of
    the same normalised alias), make the connection current, return the
    index. *)
Definition register (connection : Session) (alias : option string)
    (k : ConnectionCache) : nat * ConnectionCache :=
  let conns := _connections k ++ [connection] in
  let index := length conns in
  let aliases :=
    match alias with
    | Some a => <[normalize a := index]> (_aliases k)
    | None => _aliases k
    end in
  (index, mkCache (Some connection) conns aliases).

(** The 1-based position, counted from [i], of the first entry that is the
    object [s]. *)
Fixpoint index_from (i : nat) (s : Session) (conns : list Session) : option nat :=
  match conns with
  | [] => None
  | c :: rest => if Nat.eqb c s then Some (S i) else index_from (S i) s rest
  end.

(** Modelled from the spec: the [current_index] property of the cache, the
    index of the current entry; [None] without a current connection. *)
Definition current_index (k : ConnectionCache) : option nat :=
  match current k with
  | None => None
  | Some s => index_from 0 s (_connections k)
  end.

(** The argument of [switch]: Robot passes an integer or a string. *)
Inductive Key :=
| KInt (i : Z)
| KStr (s : string).

Definition key_str (key : Key) : string :=
  match key with
  | KInt i => pretty i
  | KStr s => s
  end.

(** Modelled from the spec: the cache's lookup of an entry "by index or
    alias", in the three steps below. *)
Definition _resolve_alias (k : ConnectionCache) (key : Key) : option nat :=
  match key with
  | KStr s => _aliases k !! normalize s
  | KInt _ => None
  end.

(** [int(index)], then [0 < index <= len(self._connections)]. *)
Definition _resolve_index (k : ConnectionCache) (key : Key) : option nat :=
  let index := match key with KInt i => Some i | KStr s => py_int s end in
  match index with
  | Some i =>
      if bool_decide (0 < i ≤ Z.of_nat (length (_connections k)))%Z
      then Some (Z.to_nat i) else None
  | None => None
  end.

(** Alias first, index second. *)
Definition resolve_alias_or_index (k : ConnectionCache) (key : Key) : option nat :=
  match _resolve_alias k key with
  | Some i => Some i
  | None => _resolve_index k key
  end.

(** Modelled from the spec: [get_connection(alias_or_index)] of the cache,
    [self._connections[index - 1]] for the resolved index, an error when
    nothing matches. *)
Definition get_connection (k : ConnectionCache) (key : Key) : Res Session :=
  match resolve_alias_or_index k key with
  | None => Raise (RuntimeError ("Non-existing index or alias '" +:+ key_str key +:+ "'."))
  | Some index =>
      match _connections k !! (index - 1) with
      | Some s => Ok s
      | None => Raise (IndexError "list index out of range")
      end
  end.

(** Modelled from the spec: [switch(alias_or_index)] of the cache; sets
    [current] to the entry found and returns it. *)
Definition switch (key : Key) : M Session :=
  fun st =>
    let k := _cache (self st) in
    match get_connection k key with
    | Ok s => (Ok s, set_cache (mkCache (Some s) (_connections k) (_aliases k)) st)
    | Raise e => (Raise e, st)
    end.

(** Modelled from the spec: [empty_cache()] of the cache; no entries, no
    aliases, no current connection, numbering restarts at 1. *)
Definition empty_cache : M unit :=
  modify (set_cache cache0).

(** The loop of [close_all]: [getattr(conn, 'shutdown')()] for each entry. *)
Fixpoint close_each (conns : list Session) : M unit :=
  match conns with
  | [] => ret tt
  | conn :: rest => do session_shutdown conn then close_each rest
  end.

(** Modelled from the spec: [close_all(closer_method='shutdown')] of the
    cache.  Shut every entry down in order (the first failure propagates and
    leaves the cache as it was), empty the cache, return the placeholder
    that is now current. *)
Definition close_all : M PyConn :=
  let* st := get in
  do close_each (_connections (_cache (self st))) then
  do empty_cache then
  ret NoConnectionObj.

(** ** The keywords of [CassandraCQLLibrary] *)

Definition no_connection_msg : string :=
  "There is no connection to Cassandra cluster.".

Record ConnectArgs := mkArgs {
  host : string;
  port : PortArg;                (* default 9042 *)
  alias : option string;
  keyspace : option string;
  username : option string;
  password : string;             (* default '' *)
}.

(** [PlainTextAuthProvider(...) if username else None] *)
Definition auth_provider (a : ConnectArgs) : option (string * string) :=
  match username a with
  | Some u => if String.eqb u "" then None else Some (u, password a)
  | None => None
  end.

(** [connect_to_cassandra]: everything up to [cluster.connect()] is one
    driver call; any exception of the body is re-raised as [Exception]. *)
Definition connect_to_cassandra (a : ConnectArgs) : M nat :=
  try_except
    (let* session := cluster_connect (host a) (port a) (auth_provider a) in
     do match keyspace a with
        | Some ks => do call (CSetKeyspace session ks) then ret tt
        | None => ret tt
        end then
     do modify (set_connection (SessionRef session)) then
     fun st =>
       let '(index, k) := register session (alias a) (_cache (self st)) in
       (Ok index, set_cache k st))
    (fun e => raise (Exception ("Connect to Cassandra error: " +:+ str_exc e))).

(** [disconnect_from_cassandra]: the guard tests [is None], so the cache's
    placeholder passes it and answers [.shutdown] with its own error. *)
Definition disconnect_from_cassandra : M unit :=
  let* st := get in
  match _connection (self st) with
  | PyNone => raise (Exception no_connection_msg)
  | NoConnectionObj => raise (RuntimeError "No open connection.")
  | SessionRef s => session_shutdown s
  end.

(** [self._connection = self._cache.close_all(closer_method='shutdown')] *)
Definition close_all_cassandra_connections : M unit :=
  let* c := close_all in
  modify (set_connection c).

(** [switch_cassandra_connection]: the old index is read first; a failing
    [switch] raises before [self._connection] is assigned. *)
Definition switch_cassandra_connection (index_or_alias : Key) : M (option nat) :=
  let* st := get in
  let old_index := current_index (_cache (self st)) in
  let* s := switch index_or_alias in
  do modify (set_connection (SessionRef s)) then
  ret old_index.

(** [execute_cql]: the guard, then [execute(statement, timeout=60)]. *)
Definition execute_cql (statement : string) : M ResultSet :=
  let* st := get in
  match _connection (self st) with
  | SessionRef s => call (CExecute s statement (Some 60%Z))
  | PyNone | NoConnectionObj => raise (Exception no_connection_msg)
  end.

(** [execute_async_cql]: the same guard, then [execute_async(statement)]. *)
Definition execute_async_cql (statement : string) : M Future :=
  let* st := get in
  match _connection (self st) with
  | SessionRef s => session_execute_async s statement
  | PyNone | NoConnectionObj => raise (Exception no_connection_msg)
  end.

(** [get_async_result]: [future.result()], any exception re-raised as
    [Exception]. *)
Definition get_async_result (future : Future) : M ResultSet :=
  try_except
    (call (CFutureResult future))
    (fun e => raise (Exception ("Operation failed: " +:+ str_exc e))).

(** The loop of [get_column]: one pass over the rows, appending. *)
Fixpoint column_values (column : string) (result : ResultSet)
    (result_values : list string) : Res (list string) :=
  match result with
  | [] => Ok result_values
  | item :: rest =>
      match getattr item column with
      | Some v => column_values column rest (result_values ++ [py_str v])
      | None =>
          Raise (AttributeError ("'Row' object has no attribute '" +:+ column +:+ "'"))
      end
  end.

Definition get_column (column statement : string) : M (list string) :=
  let* result := execute_cql statement in
  match column_values column result [] with
  | Ok result_values => ret result_values
  | Raise e => raise e
  end.

Definition get_column_from_schema_keyspaces (column : string) : M (list string) :=
  get_column column "SELECT *
                       FROM system.schema_keyspaces".

(** The driver lets [connect_to_cassandra a] through: the cluster connects
    and, when a keyspace is given, [set_keyspace] on the new session returns. *)
Definition driver_connects (a : ConnectArgs) (w : World) : bool :=
  let c := CConnect (host a) (port a) (auth_provider a) in
  match drv w c, keyspace a with
  | Returns _, None => true
  | Returns _, Some ks =>
      match drv (new_session (log_call c w)) (CSetKeyspace (sessions_created w) ks) with
      | Returns _ => true
      | Fails _ _ => false
      end
  | Fails _ _, _ => false
  end.

(** *** The older copy, [CassandraCQLLibrary.py] at the top level

    It differs from the class above in the two keywords below only by
    [execute_cql]: no guard on [self._connection] and no [timeout]
    argument. *)

Definition legacy_switch_cassandra_connection (index_or_alias : Key) : M (option nat) :=
  let* st := get in
  let old_index := current_index (_cache (self st)) in
  let* s := switch index_or_alias in
  do modify (set_connection (SessionRef s)) then
  ret old_index.

Definition legacy_execute_cql (statement : string) : M ResultSet :=
  let* st := get in
  match _connection (self st) with
  | SessionRef s => call (CExecute s statement None)
  | PyNone => raise (AttributeError "'NoneType' object has no attribute 'execute'")
  | NoConnectionObj => raise (RuntimeError "No open connection.")
  end.

(** ** Sequences of keywords *)

Inductive Keyword :=
| ConnectToCassandra (a : ConnectArgs)
| DisconnectFromCassandra
| CloseAllCassandraConnections
| SwitchCassandraConnection (index_or_alias : Key)
| ExecuteCql (statement : string)
| ExecuteAsyncCql (statement : string)
| GetAsyncResult (future : Future)
| GetColumn (column statement : string).

(** What a keyword hands back to the test. *)
Inductive Ret :=
| RNone
| RIndex (i : nat)
| RPrevious (i : option nat)
| RRows (rows : ResultSet)
| RFuture (f : Future)
| RStrings (l : list string).

Definition returning {A} (f : A -> Ret) (m : M A) : M Ret :=
  let* a := m in ret (f a).

Definition keyword (kw : Keyword) : M Ret :=
  match kw with
  | ConnectToCassandra a => returning RIndex (connect_to_cassandra a)
  | DisconnectFromCassandra => returning (fun _ => RNone) disconnect_from_cassandra
  | CloseAllCassandraConnections => returning (fun _ => RNone) close_all_cassandra_connections
  | SwitchCassandraConnection key => returning RPrevious (switch_cassandra_connection key)
  | ExecuteCql statement => returning RRows (execute_cql statement)
  | ExecuteAsyncCql statement => returning RFuture (execute_async_cql statement)
  | GetAsyncResult future => returning RRows (get_async_result future)
  | GetColumn column statement => returning RStrings (get_column column statement)
  end.

(** A test: keywords run one after the other; a failing keyword does not
    stop the ones after it (each is its own test step).  The log pairs each
    keyword with its result. *)
Fixpoint run (kws : list Keyword) (st : State) : list (Keyword * Res Ret) * State :=
  match kws with
  | [] => ([], st)
  | kw :: rest =>
      let '(r, st1) := keyword kw st in
      let '(log, st2) := run rest st1 in
      ((kw, r) :: log, st2)
  end.

Definition reachable (st : State) : Prop :=
  exists kws, snd (run kws init) = st.

(** The indices handed out by successful [connect_to_cassandra] calls,
    grouped into the stretches between successful
    [close_all_cassandra_connections] calls; [cur] is the stretch under way. *)
Fixpoint index_runs (log : list (Keyword * Res Ret)) (cur : list nat) : list (list nat) :=
  match log with
  | [] => [cur]
  | (ConnectToCassandra _, Ok (RIndex i)) :: rest => index_runs rest (cur ++ [i])
  | (CloseAllCassandraConnections, Ok _) :: rest => cur :: index_runs rest []
  | _ :: rest => index_runs rest cur
  end.

End Library.

(** ** Concrete drivers and runs *)

(** An alias dictionary that keeps its keys as they are, and [int] on the
    strings the runs below use. *)
Definition normalize_id (s : string) : string := s.

Definition py_int_digit (s : string) : option Z :=
  if String.eqb s "1" then Some 1%Z
  else if String.eqb s "2" then Some 2%Z
  else if String.eqb s "3" then Some 3%Z
  else None.

(** A driver whose calls all return, [execute] and [result] with [rows]. *)
Definition driver_ok (rows : ResultSet) : Driver := fun _ _ => Returns rows.

(** A driver whose [execute] and [result] raise and whose other calls return. *)
Definition driver_failing : Driver :=
  fun _ c =>
    match c with
    | CExecute _ _ _ | CFutureResult _ => Fails "InvalidRequest" "line 1: no viable alternative"
    | _ => Returns []
    end.

Definition args (h : string) (al : option string) : ConnectArgs :=
  mkArgs h (PInt 9042) al None None "".

Definition two_rows : ResultSet :=
  [ [("keyspace_name", VText "test"); ("durable_writes", VBool true)];
    [("keyspace_name", VText "OpsCenter"); ("durable_writes", VBool true)] ].

Definition scenario : list Keyword :=
  [ ConnectToCassandra (args "10.0.0.1" (Some "c1"));
    ConnectToCassandra (args "10.0.0.2" (Some "c2"));
    SwitchCassandraConnection (KStr "c1");
    SwitchCassandraConnection (KInt 2);
    GetColumn "keyspace_name" "SELECT * FROM system.schema_keyspaces";
    CloseAllCassandraConnections;
    ConnectToCassandra (args "10.0.0.3" None) ].

(** The state after the two connections of [scenario]. *)
Definition st_two : State :=
  snd (run (driver_ok two_rows) normalize_id py_int_digit (take 2 scenario) init).

(** One connection, on a driver whose [execute] raises. *)
Definition st_failing : State :=
  snd (run driver_failing normalize_id py_int_digit
         [ConnectToCassandra (args "10.0.0.1" (Some "c1"))] init).

Definition same_alias_twice : list Keyword :=
  [ ConnectToCassandra (args "10.0.0.1" (Some "c1"));
    ConnectToCassandra (args "10.0.0.2" (Some "c1"));
    SwitchCassandraConnection (KStr "c1") ].

(** ** The remaining members of the two files *)

Section Members.

Variable drv : Driver.

(** What the attribute [keyspace] of a session holds, as the driver keeps
    it ([None] for Python's [None]). *)
Variable session_keyspace : World -> Session -> option string.

(** The [keyspace] property (the name [keyspace] is the argument of
    [connect_to_cassandra] here): the guard tests [is None], then the
    attribute of [self._connection] is read; the cache's placeholder answers
    the attribute with its own error. *)
Definition keyspace_property : M (option string) :=
  let* st := get in
  match _connection (self st) with
  | PyNone => raise (Exception no_connection_msg)
  | NoConnectionObj => raise (RuntimeError "No open connection.")
  | SessionRef s => ret (session_keyspace (world st) s)
  end.

(** Every [shutdown] of the loop of [close_all] over [conns] returns, each
    one asked in the world the shutdowns before it left. *)
Fixpoint shutdowns_return (conns : list Session) (w : World) : bool :=
  match conns with
  | [] => true
  | s :: rest =>
      match drv w (CShutdown s) with
      | Returns _ => shutdowns_return rest (mark_shut_down s (log_call (CShutdown s) w))
      | Fails _ _ => false
      end
  end.

(** The older copy of [disconnect_from_cassandra]: [self._connection.shutdown()]
    with no guard. *)
Definition legacy_disconnect_from_cassandra : M unit :=
  let* st := get in
  match _connection (self st) with
  | SessionRef s => session_shutdown drv s
  | PyNone => raise (AttributeError "'NoneType' object has no attribute 'shutdown'")
  | NoConnectionObj => raise (RuntimeError "No open connection.")
  end.

(** The older copy of [execute_async_cql]: no guard either. *)
Definition legacy_execute_async_cql (statement : string) : M Future :=
  let* st := get in
  match _connection (self st) with
  | SessionRef s => session_execute_async drv s statement
  | PyNone => raise (AttributeError "'NoneType' object has no attribute 'execute_async'")
  | NoConnectionObj => raise (RuntimeError "No open connection.")
  end.

End Members.

(** A driver on which [set_keyspace] raises and every other call returns. *)
Definition driver_keyspace_fails : Driver :=
  fun _ c =>
    match c with
    | CSetKeyspace _ _ => Fails "InvalidRequest" "Keyspace 'nope' does not exist"
    | _ => Returns []
    end.

(** A driver on which [shutdown] of the session [bad] raises. *)
Definition driver_shutdown_fails (bad : Session) : Driver :=
  fun _ c =>
    match c with
    | CShutdown s =>
        if Nat.eqb s bad then Fails "OperationTimedOut" "shutdown timed out"
        else Returns []
    | _ => Returns []
    end.

(** Two connections, a [close_all] during which the second [shutdown]
    raises, and a third connection. *)
Definition close_all_interrupted : list Keyword :=
  [ ConnectToCassandra (args "10.0.0.1" (Some "c1"));
    ConnectToCassandra (args "10.0.0.2" (Some "c2"));
    CloseAllCassandraConnections;
    ConnectToCassandra (args "10.0.0.3" None) ].

(** Three connections on that driver. *)
Definition st_three : State :=
  snd (run (driver_shutdown_fails 1) normalize_id py_int_digit
         [ ConnectToCassandra (args "10.0.0.1" (Some "c1"));
           ConnectToCassandra (args "10.0.0.2" (Some "c2"));
           ConnectToCassandra (args "10.0.0.3" None) ] init).

(** Arguments with a keyspace, the port as a string and a password but no
    username. *)
Definition args_keyspace (h ks : string) : ConnectArgs :=
  mkArgs h (PStr "9042") None (Some ks) None "secret".

(** A keyspace attribute for the runs below. *)
Definition keyspace_system (w : World) (s : Session) : option string := Some "system".

(** ** Basic facts about the monad and the driver calls *)

Section Facts.

Variable drv : Driver.
Variable normalize : string -> string.
Variable py_int : string -> option Z.

Local Abbreviation connect_to_cassandra := (connect_to_cassandra drv normalize).
Local Abbreviation close_all_cassandra_connections := (close_all_cassandra_connections drv).
Local Abbreviation switch_cassandra_connection := (switch_cassandra_connection normalize py_int).
Local Abbreviation disconnect_from_cassandra := (disconnect_from_cassandra drv).
Local Abbreviation execute_cql := (execute_cql drv).
Local Abbreviation execute_async_cql := (execute_async_cql drv).
Local Abbreviation get_async_result := (get_async_result drv).
Local Abbreviation get_column := (get_column drv).
Local Abbreviation keyword := (keyword drv normalize py_int).
Local Abbreviation run := (run drv normalize py_int).
Local Abbreviation reachable := (reachable drv normalize py_int).
Local Abbreviation answer := (answer drv).

Lemma call_eq c st :
  call drv c st = (answer (world st) c, set_world (log_call c (world st)) st).
Proof. unfold call, answer. by destruct (drv _ _). Qed.

Lemma same_self_refl st : same_self st st.
Proof. by split. Qed.

Lemma same_self_trans st1 st2 st3 :
  same_self st1 st2 -> same_self st2 st3 -> same_self st1 st3.
Proof. intros [H1 H2] [H3 H4]. split; [congruence | lia]. Qed.

Lemma call_same_self c st r st' : call drv c st = (r, st') -> same_self st st'.
Proof. rewrite call_eq. intros [= _ <-]. by split. Qed.

Lemma session_shutdown_same_self s st r st' :
  session_shutdown drv s st = (r, st') -> same_self st st'.
Proof.
  unfold session_shutdown, bind, modify. rewrite call_eq.
  destruct (answer _ _); intros [= _ <-]; by split.
Qed.

Lemma close_each_raise conns st e st' :
  close_each drv conns st = (Raise e, st') -> same_self st st'.
Proof.
  revert st. induction conns as [|c conns IH]; intros st; simpl.
  - by unfold ret.
  - unfold bind at 1.
    destruct (session_shutdown drv c st) as [[[]|e1] st1] eqn:E1.
    + intros H. eapply same_self_trans; [by eapply session_shutdown_same_self | by eapply IH].
    + intros [= _ <-]. by eapply session_shutdown_same_self.
Qed.

Lemma close_each_ok conns st u st' :
  close_each drv conns st = (Ok u, st') -> same_self st st'.
Proof.
  revert st. induction conns as [|c conns IH]; intros st; simpl.
  - unfold ret. intros [= _ <-]. apply same_self_refl.
  - unfold bind at 1.
    destruct (session_shutdown drv c st) as [[[]|e1] st1] eqn:E1; [|done].
    intros H. eapply same_self_trans; [by eapply session_shutdown_same_self | by eapply IH].
Qed.

(** *** What each keyword does to the library object *)

Lemma close_all_cases st r st' :
  close_all_cassandra_connections st = (r, st') ->
  (r = Ok tt /\ self st' = mkSelf NoConnectionObj cache0
   /\ sessions_created (world st) <= sessions_created (world st'))
  \/ ((exists e, r = Raise e) /\ same_self st st').
Proof.
  unfold close_all_cassandra_connections, close_all, bind, get, empty_cache, modify, ret.
  destruct (close_each drv _ st) as [[[]|e] st1] eqn:E.
  - intros [= <- <-]. left. apply close_each_ok in E as [_ E2]. done.
  - intros [= <- <-]. right. split; [by eexists | by eapply close_each_raise].
Qed.

Lemma connect_cases a st r st' :
  connect_to_cassandra a st = (r, st') ->
  (exists s, s = sessions_created (world st)
     /\ r = Ok (S (length (entries st)))
     /\ self st' = mkSelf (SessionRef s)
          (snd (register normalize s (alias a) (_cache (self st))))
     /\ s < sessions_created (world st'))
  \/ ((exists e, r = Raise (Exception ("Connect to Cassandra error: " +:+ str_exc e)))
      /\ same_self st st').
Proof.
  unfold connect_to_cassandra, try_except, cluster_connect, bind, get, modify, ret, raise.
  rewrite call_eq.
  destruct (answer (world st) _) as [rows|e] eqn:E1; simpl.
  - destruct (keyspace a) as [ks|].
    + rewrite call_eq. simpl.
      destruct (answer _ (CSetKeyspace _ _)) as [rows2|e2] eqn:E2; simpl.
      * intros [= <- <-]. left. eexists. split; [done|].
        unfold entries. simpl. rewrite length_app. simpl.
        split; [f_equal; lia|]. split; [done|lia].
      * intros [= <- <-]. right. split; [by eexists|]. split; simpl; [done|lia].
    + intros [= <- <-]. left. eexists. split; [done|].
      unfold entries. simpl. rewrite length_app. simpl.
      split; [f_equal; lia|]. split; [done|lia].
  - intros [= <- <-]. right. split; [by eexists|]. by split.
Qed.

Lemma switch_cases key st r st' :
  switch_cassandra_connection key st = (r, st') ->
  match get_connection normalize py_int (_cache (self st)) key with
  | Ok s =>
      r = Ok (current_index (_cache (self st)))
      /\ st' = mkState (mkSelf (SessionRef s)
                 (mkCache (Some s) (entries st) (_aliases (_cache (self st)))))
                 (world st)
  | Raise e => r = Raise e /\ st' = st
  end.
Proof.
  unfold switch_cassandra_connection, switch, bind, get, modify, ret.
  destruct (get_connection _ _ _ _) as [s|e]; by intros [= <- <-].
Qed.

Lemma disconnect_same_self st r st' :
  disconnect_from_cassandra st = (r, st') -> same_self st st'.
Proof.
  unfold disconnect_from_cassandra, bind, get, raise.
  destruct (_connection (self st)).
  - intros [= _ <-]. apply same_self_refl.
  - intros [= _ <-]. apply same_self_refl.
  - apply session_shutdown_same_self.
Qed.

Lemma execute_cql_same_self statement st r st' :
  execute_cql statement st = (r, st') -> same_self st st'.
Proof.
  unfold execute_cql, bind, get, raise.
  destruct (_connection (self st)); try (intros [= _ <-]; apply same_self_refl).
  apply call_same_self.
Qed.

Lemma execute_async_cql_same_self statement st r st' :
  execute_async_cql statement st = (r, st') -> same_self st st'.
Proof.
  unfold execute_async_cql, session_execute_async, bind, get, modify, ret, raise.
  destruct (_connection (self st)); try (intros [= _ <-]; apply same_self_refl).
  rewrite call_eq. destruct (answer _ _); intros [= _ <-]; by split.
Qed.

Lemma get_async_result_same_self future st r st' :
  get_async_result future st = (r, st') -> same_self st st'.
Proof.
  unfold get_async_result, try_except, raise. rewrite call_eq.
  destruct (answer _ _); intros [= _ <-]; by split.
Qed.

Lemma get_column_same_self column statement st r st' :
  get_column column statement st = (r, st') -> same_self st st'.
Proof.
  unfold get_column, bind at 1.
  destruct (execute_cql statement st) as [[rows|e] st1] eqn:E.
  - apply execute_cql_same_self in E.
    destruct (column_values _ _ _); unfold ret, raise; by intros [= _ <-].
  - apply execute_cql_same_self in E. by intros [= _ <-].
Qed.

(** *** The position of the current entry *)

Lemma index_from_sound i s conns j :
  index_from i s conns = Some j ->
  i < j /\ conns !! (j - i - 1) = Some s.
Proof.
  revert i. induction conns as [|c conns IH]; intros i; simpl; [done|].
  destruct (Nat.eqb_spec c s) as [->|Hne].
  - intros [= <-]. split; [lia|]. by replace (S i - i - 1) with 0 by lia.
  - intros H. apply IH in H as [Hlt Hl]. split; [lia|].
    replace (j - i - 1) with (S (j - S i - 1)) by lia. done.
Qed.

Lemma index_from_complete i s conns n :
  NoDup conns -> conns !! n = Some s -> index_from i s conns = Some (S (i + n)).
Proof.
  revert i n. induction conns as [|c conns IH]; intros i n Hnd; simpl; [done|].
  apply NoDup_cons in Hnd as [Hnotin Hnd].
  destruct n as [|n]; simpl.
  - intros [= ->]. rewrite Nat.eqb_refl. f_equal. lia.
  - intros Hl. destruct (Nat.eqb_spec c s) as [->|Hne].
    + exfalso. apply Hnotin. by eapply list_elem_of_lookup_2.
    + rewrite (IH (S i) n Hnd Hl). f_equal. lia.
Qed.

Lemma current_index_entry st s :
  consistent st -> current (_cache (self st)) = Some s ->
  exists j, current_index (_cache (self st)) = Some j
            /\ 1 <= j /\ entries st !! (j - 1) = Some s.
Proof.
  intros Hc Hs. pose proof (current_entry st Hc) as Hcur. rewrite Hs in Hcur.
  destruct Hcur as [Hin _]. apply list_elem_of_lookup in Hin as [n Hn].
  exists (S n). unfold current_index. rewrite Hs. fold (entries st).
  rewrite (index_from_complete 0 s _ n (entries_nodup st Hc) Hn).
  split; [done|]. split; [lia|]. by replace (S n - 1) with n by lia.
Qed.

(** *** The invariant holds in every state a test can reach *)

Lemma consistent_init : consistent init.
Proof.
  split; simpl.
  - constructor.
  - intros s Hs. by apply elem_of_nil in Hs.
  - done.
  - intros a i Hi. by rewrite lookup_empty in Hi.
Qed.

Lemma consistent_same_self st st' :
  same_self st st' -> consistent st -> consistent st'.
Proof.
  intros [Hs Hw] [H1 H2 H3 H4]. unfold entries in *.
  split; unfold entries; rewrite Hs; try done.
  intros s Hin. specialize (H2 s Hin). lia.
Qed.

Lemma consistent_register st st' s al :
  consistent st ->
  s = sessions_created (world st) ->
  self st' = mkSelf (SessionRef s) (snd (register normalize s al (_cache (self st)))) ->
  s < sessions_created (world st') ->
  consistent st'.
Proof.
  intros [H1 H2 H3 H4] Hs Hself Hlt. unfold entries in *.
  split; unfold entries; rewrite Hself; simpl.
  - apply NoDup_app. split; [done|]. split; [|apply NoDup_singleton].
    intros x Hx Hx'. apply list_elem_of_singleton in Hx' as ->.
    specialize (H2 _ Hx). lia.
  - intros x Hx. apply elem_of_app in Hx as [Hx|Hx].
    + specialize (H2 _ Hx). lia.
    + apply list_elem_of_singleton in Hx as ->. done.
  - split; [|done]. apply elem_of_app. right. by apply list_elem_of_singleton.
  - intros a i. rewrite length_app. simpl. destruct al as [al|].
    + rewrite lookup_insert. case_decide.
      * intros [= <-]. lia.
      * intros Hi. specialize (H4 _ _ Hi). lia.
    + intros Hi. specialize (H4 _ _ Hi). lia.
Qed.

Lemma get_connection_entry k key s :
  get_connection normalize py_int k key = Ok s -> s ∈ _connections k.
Proof.
  unfold get_connection. destruct (resolve_alias_or_index _ _ _ _) as [i|]; [|done].
  destruct (_connections k !! (i - 1)) eqn:E; [|done].
  intros [= <-]. by eapply list_elem_of_lookup_2.
Qed.

Lemma keyword_consistent kw st r st' :
  keyword kw st = (r, st') -> consistent st -> consistent st'.
Proof.
  destruct kw; simpl; unfold returning, bind, ret.
  - destruct (connect_to_cassandra a st) as [r1 st1] eqn:E.
    intros Hr Hc. assert (st' = st1) as -> by (destruct r1; by inversion Hr).
    apply connect_cases in E as [(s & Hs & _ & Hself & Hlt)|[_ Hss]].
    + by eapply consistent_register.
    + by eapply consistent_same_self.
  - destruct (disconnect_from_cassandra st) as [r1 st1] eqn:E.
    intros Hr Hc. assert (st' = st1) as -> by (destruct r1; by inversion Hr).
    eapply consistent_same_self; [by eapply disconnect_same_self | done].
  - destruct (close_all_cassandra_connections st) as [r1 st1] eqn:E.
    intros Hr Hc. assert (st' = st1) as -> by (destruct r1; by inversion Hr).
    apply close_all_cases in E as [(_ & Hself & _)|[_ Hss]].
    + split; unfold entries; rewrite Hself; simpl; try done.
      * constructor.
      * intros s Hs. by apply elem_of_nil in Hs.
    + by eapply consistent_same_self.
  - destruct (switch_cassandra_connection index_or_alias st) as [r1 st1] eqn:E.
    intros Hr Hc. assert (st' = st1) as -> by (destruct r1; by inversion Hr).
    apply switch_cases in E.
    destruct (get_connection _ _ _ _) as [s|e] eqn:G.
    + destruct E as [_ ->]. destruct Hc as [H1 H2 H3 H4].
      split; unfold entries in *; simpl; try done.
      split; [|done]. by eapply get_connection_entry.
    + by destruct E as [_ ->].
  - destruct (execute_cql statement st) as [r1 st1] eqn:E.
    intros Hr Hc. assert (st' = st1) as -> by (destruct r1; by inversion Hr).
    eapply consistent_same_self; [by eapply execute_cql_same_self | done].
  - destruct (execute_async_cql statement st) as [r1 st1] eqn:E.
    intros Hr Hc. assert (st' = st1) as -> by (destruct r1; by inversion Hr).
    eapply consistent_same_self; [by eapply execute_async_cql_same_self | done].
  - destruct (get_async_result future st) as [r1 st1] eqn:E.
    intros Hr Hc. assert (st' = st1) as -> by (destruct r1; by inversion Hr).
    eapply consistent_same_self; [by eapply get_async_result_same_self | done].
  - destruct (get_column column statement st) as [r1 st1] eqn:E.
    intros Hr Hc. assert (st' = st1) as -> by (destruct r1; by inversion Hr).
    eapply consistent_same_self; [by eapply get_column_same_self | done].
Qed.

Lemma run_consistent kws st :
  consistent st -> consistent (snd (run kws st)).
Proof.
  revert st. induction kws as [|kw kws IH]; intros st Hc; simpl; [done|].
  destruct (keyword kw st) as [r st1] eqn:E.
  specialize (IH st1 (keyword_consistent _ _ _ _ E Hc)).
  by destruct (run kws st1).
Qed.

Lemma reachable_consistent st : reachable st -> consistent st.
Proof. intros [kws <-]. apply run_consistent, consistent_init. Qed.

(** ** Index assignment *)

Lemma keyword_entries kw st r st' :
  keyword kw st = (r, st') ->
  (exists a, kw = ConnectToCassandra a
     /\ r = Ok (RIndex (S (length (entries st))))
     /\ length (entries st') = S (length (entries st)))
  \/ (kw = CloseAllCassandraConnections /\ r = Ok RNone /\ entries st' = [])
  \/ ((forall log cur, index_runs ((kw, r) :: log) cur = index_runs log cur)
      /\ entries st' = entries st).
Proof.
  destruct kw; simpl; unfold returning, bind, ret.
  - destruct (connect_to_cassandra a st) as [r1 st1] eqn:E.
    apply connect_cases in E as [(s & Hs & -> & Hself & Hlt)|[[e ->] [Hss _]]].
    + intros [= <- <-]. left. exists a. split; [done|]. split; [done|].
      unfold entries. rewrite Hself. simpl. by rewrite length_app, Nat.add_1_r.
    + intros [= <- <-]. right. right. split; [done|]. unfold entries. by rewrite Hss.
  - destruct (disconnect_from_cassandra st) as [r1 st1] eqn:E.
    apply disconnect_same_self in E as [Hss _].
    intros Hr. right. right.
    assert (st' = st1) as -> by (destruct r1; by inversion Hr).
    split; [|unfold entries; by rewrite Hss].
    destruct r1; inversion Hr; done.
  - destruct (close_all_cassandra_connections st) as [r1 st1] eqn:E.
    apply close_all_cases in E as [(-> & Hself & _)|[[e ->] [Hss _]]].
    + intros [= <- <-]. right. left. unfold entries. by rewrite Hself.
    + intros [= <- <-]. right. right. split; [done|]. unfold entries. by rewrite Hss.
  - destruct (switch_cassandra_connection index_or_alias st) as [r1 st1] eqn:E.
    apply switch_cases in E. intros Hr. right. right.
    assert (st' = st1) as -> by (destruct r1; by inversion Hr).
    split; [destruct r1; inversion Hr; done|].
    destruct (get_connection _ _ _ _); by destruct E as [_ ->].
  - destruct (execute_cql statement st) as [r1 st1] eqn:E.
    apply execute_cql_same_self in E as [Hss _].
    intros Hr. right. right.
    assert (st' = st1) as -> by (destruct r1; by inversion Hr).
    split; [|unfold entries; by rewrite Hss].
    destruct r1; inversion Hr; done.
  - destruct (execute_async_cql statement st) as [r1 st1] eqn:E.
    apply execute_async_cql_same_self in E as [Hss _].
    intros Hr. right. right.
    assert (st' = st1) as -> by (destruct r1; by inversion Hr).
    split; [|unfold entries; by rewrite Hss].
    destruct r1; inversion Hr; done.
  - destruct (get_async_result future st) as [r1 st1] eqn:E.
    apply get_async_result_same_self in E as [Hss _].
    intros Hr. right. right.
    assert (st' = st1) as -> by (destruct r1; by inversion Hr).
    split; [|unfold entries; by rewrite Hss].
    destruct r1; inversion Hr; done.
  - destruct (get_column column statement st) as [r1 st1] eqn:E.
    apply get_column_same_self in E as [Hss _].
    intros Hr. right. right.
    assert (st' = st1) as -> by (destruct r1; by inversion Hr).
    split; [|unfold entries; by rewrite Hss].
    destruct r1; inversion Hr; done.
Qed.

Lemma run_cons kw kws st :
  fst (run (kw :: kws) st)
  = (kw, fst (keyword kw st)) :: fst (run kws (snd (keyword kw st))).
Proof.
  simpl. destruct (keyword kw st) as [r st1]. cbn [fst snd].
  by destruct (run kws st1).
Qed.

Lemma index_runs_from kws st cur :
  cur = seq 1 (length (entries st)) ->
  Forall (fun l => l = seq 1 (length l)) (index_runs (fst (run kws st)) cur).
Proof.
  revert st cur. induction kws as [|kw kws IH]; intros st cur Hcur.
  - constructor; [|constructor]. by rewrite Hcur, length_seq.
  - rewrite run_cons. destruct (keyword kw st) as [r st1] eqn:E.
    specialize (IH st1). cbn [fst snd].
    apply keyword_entries in E as [(a & -> & -> & Hlen)|[(-> & -> & Hnil)|[Hother Hsame]]].
    + cbn [index_runs]. apply IH. rewrite Hlen, seq_S, Hcur. done.
    + cbn [index_runs]. constructor; [by rewrite Hcur, length_seq|].
      apply IH. by rewrite Hnil.
    + rewrite Hother. apply IH. by rewrite Hsame.
Qed.

(** ** Switching *)

Lemma resolve_int_in_range k z :
  (0 < z <= Z.of_nat (length (_connections k)))%Z ->
  resolve_alias_or_index normalize py_int k (KInt z) = Some (Z.to_nat z).
Proof.
  intros Hz. unfold resolve_alias_or_index, _resolve_alias, _resolve_index.
  by rewrite bool_decide_eq_true_2.
Qed.

Lemma resolve_bound_alias k a i :
  _aliases k !! normalize a = Some i ->
  resolve_alias_or_index normalize py_int k (KStr a) = Some i.
Proof. intros Ha. unfold resolve_alias_or_index, _resolve_alias. by rewrite Ha. Qed.

Lemma resolve_in_range st key i :
  consistent st ->
  resolve_alias_or_index normalize py_int (_cache (self st)) key = Some i ->
  1 <= i <= length (entries st).
Proof.
  intros Hc. unfold resolve_alias_or_index.
  destruct (_resolve_alias _ _ _) as [j|] eqn:Ea.
  - intros [= ->]. destruct key as [z|a]; [done|]. simpl in Ea.
    by eapply aliases_bound.
  - unfold _resolve_index.
    destruct (match key with KInt z => Some z | KStr a => py_int a end) as [z|]; [|done].
    case_bool_decide as Hz; [|done]. intros [= <-]. unfold entries. lia.
Qed.

(** C2. In a reachable state with at least one entry,
    [switch_cassandra_connection] either resolves its argument to an index
    [i], makes entry [i] the current connection (of the cache and of the
    library) and returns the index [j] of the entry that was current before;
    or it resolves to nothing and raises the cache's "Non-existing index or
    alias" error.  [resolve_int_in_range] and [resolve_bound_alias] say what
    an index and a bound alias resolve to. *)
Theorem switch_returns_previous_index (st : State) (key : Key) :
  reachable st ->
  entries st <> [] ->
  match resolve_alias_or_index normalize py_int (_cache (self st)) key with
  | Some i =>
      exists s old j,
        entries st !! (i - 1) = Some s
        /\ current (_cache (self st)) = Some old
        /\ 1 <= j /\ entries st !! (j - 1) = Some old
        /\ switch_cassandra_connection key st
           = (Ok (Some j),
              mkState (mkSelf (SessionRef s)
                         (mkCache (Some s) (entries st) (_aliases (_cache (self st)))))
                      (world st))
        /\ current_index (mkCache (Some s) (entries st) (_aliases (_cache (self st))))
           = Some i
  | None =>
      switch_cassandra_connection key st
      = (Raise (RuntimeError ("Non-existing index or alias '" +:+ key_str key +:+ "'.")), st)
  end.
Proof.
  intros Hr Hne. apply reachable_consistent in Hr as Hc.
  destruct (resolve_alias_or_index _ _ _ _) as [i|] eqn:Er.
  - pose proof (resolve_in_range _ _ _ Hc Er) as Hi.
    destruct (lookup_lt_is_Some_2 (entries st) (i - 1)) as [s Hs]; [lia|].
    pose proof (current_entry st Hc) as Hcur.
    destruct (current (_cache (self st))) as [old|] eqn:Eo; [|by destruct Hcur].
    destruct (current_index_entry st old Hc Eo) as (j & Hj & Hj1 & Hjl).
    exists s, old, j. repeat split; try done.
    + destruct (switch_cassandra_connection key st) as [r st'] eqn:E.
      apply switch_cases in E. unfold get_connection in E. rewrite Er in E.
      fold (entries st) in E. rewrite Hs in E. destruct E as [-> ->]. by rewrite Hj.
    + unfold current_index. simpl.
      rewrite (index_from_complete 0 s _ (i - 1) (entries_nodup st Hc) Hs).
      f_equal. lia.
  - destruct (switch_cassandra_connection key st) as [r st'] eqn:E.
    apply switch_cases in E. unfold get_connection in E. rewrite Er in E.
    by destruct E as [-> ->].
Qed.

(** C9. A switch whose argument resolves to no entry raises and returns the
    very state it was called in: current connection, entries, aliases and
    the driver's world are untouched.  The older copy of the keyword behaves
    the same. *)
Theorem failed_switch_changes_nothing (st : State) (key : Key) :
  resolve_alias_or_index normalize py_int (_cache (self st)) key = None ->
  switch_cassandra_connection key st
  = (Raise (RuntimeError ("Non-existing index or alias '" +:+ key_str key +:+ "'.")), st)
  /\ legacy_switch_cassandra_connection normalize py_int key st
     = (Raise (RuntimeError ("Non-existing index or alias '" +:+ key_str key +:+ "'.")), st).
Proof.
  intros Er.
  unfold switch_cassandra_connection, legacy_switch_cassandra_connection,
    switch, get_connection, bind, get.
  by rewrite Er.
Qed.

(** Whatever makes a switch fail, the state is left as it was. *)
Lemma switch_failure_atomic st key e st' :
  switch_cassandra_connection key st = (Raise e, st') -> st' = st.
Proof.
  intros E. apply switch_cases in E.
  destruct (get_connection _ _ _ _); by destruct E as [? ->].
Qed.

(** ** Executing statements *)

Lemma execute_cql_session st s statement :
  _connection (self st) = SessionRef s ->
  execute_cql statement st
  = (answer (world st) (CExecute s statement (Some 60%Z)),
     set_world (log_call (CExecute s statement (Some 60%Z)) (world st)) st).
Proof.
  intros Hs. unfold execute_cql, bind, get. rewrite Hs. apply call_eq.
Qed.

Lemma current_connection st s :
  consistent st -> current (_cache (self st)) = Some s ->
  _connection (self st) = SessionRef s.
Proof.
  intros Hc Hs. pose proof (current_entry st Hc) as H. rewrite Hs in H. by destruct H.
Qed.

(** C3. In a reachable state whose cache has no entry, [execute_cql] and
    [execute_async_cql] raise the library's "no connection" error and return
    the state unchanged; in particular the driver's call trace is the same,
    so nothing was sent to the driver. *)
Theorem execute_on_empty_cache (st : State) (statement : string) :
  reachable st ->
  entries st = [] ->
  execute_cql statement st = (Raise (Exception no_connection_msg), st)
  /\ execute_async_cql statement st = (Raise (Exception no_connection_msg), st).
Proof.
  intros Hr Hnil. apply reachable_consistent in Hr as Hc.
  pose proof (current_entry st Hc) as Hcur.
  destruct (current (_cache (self st))) as [s|].
  - destruct Hcur as [Hin _]. rewrite Hnil in Hin. by apply elem_of_nil in Hin.
  - destruct Hcur as [_ Hf].
    unfold execute_cql, execute_async_cql, bind, get, raise.
    destruct (_connection (self st)); by simpl in Hf.
Qed.

(** The older copy forwards the statement too, without a timeout argument. *)
Lemma legacy_execute_cql_forwards st s statement :
  _connection (self st) = SessionRef s ->
  legacy_execute_cql drv statement st
  = (answer (world st) (CExecute s statement None),
     set_world (log_call (CExecute s statement None) (world st)) st).
Proof.
  intros Hs. unfold legacy_execute_cql, bind, get. rewrite Hs. apply call_eq.
Qed.

(** C8 (as amended).  In a reachable state with a current connection [s],
    each copy of [execute_cql] makes exactly one driver call and its result
    is the driver's answer to that call, the rows the driver returns or the
    exception it raises.  The copy under [src/] calls
    [s.execute(statement, timeout=60)]; the older copy at the top level
    calls [s.execute(statement)], with no timeout argument. *)
Theorem execute_cql_forwards_in_each_copy (st : State) (s : Session) (statement : string) :
  reachable st ->
  current (_cache (self st)) = Some s ->
  execute_cql statement st
  = (answer (world st) (CExecute s statement (Some 60%Z)),
     set_world (log_call (CExecute s statement (Some 60%Z)) (world st)) st)
  /\ legacy_execute_cql drv statement st
     = (answer (world st) (CExecute s statement None),
        set_world (log_call (CExecute s statement None) (world st)) st).
Proof.
  intros Hr Hs. apply reachable_consistent in Hr as Hc.
  pose proof (current_connection st s Hc Hs) as Hconn.
  split; [by apply execute_cql_session | by apply legacy_execute_cql_forwards].
Qed.

(** C10. In a reachable state with a current connection [s],
    [disconnect_from_cassandra] calls [s.shutdown()] and nothing else: the
    library object (current connection, entries, aliases) is the same
    afterwards, and when the driver's shutdown returns, [s] is shut down.
    A following [execute_cql] is not stopped by the "no connection" guard:
    it sends the statement to [s] and yields the driver's answer. *)
Theorem disconnect_keeps_cache (st : State) (s : Session) :
  reachable st ->
  current (_cache (self st)) = Some s ->
  exists r st',
    disconnect_from_cassandra st = (r, st')
    /\ self st' = self st
    /\ calls (world st') = calls (world st) ++ [CShutdown s]
    /\ (forall rows, drv (world st) (CShutdown s) = Returns rows ->
          r = Ok tt /\ s ∈ shut_down (world st'))
    /\ forall statement,
         execute_cql statement st'
         = (answer (world st') (CExecute s statement (Some 60%Z)),
            set_world (log_call (CExecute s statement (Some 60%Z)) (world st')) st')
         /\ fst (execute_cql statement st') <> Raise (Exception no_connection_msg).
Proof.
  intros Hr Hs. apply reachable_consistent in Hr as Hc.
  pose proof (current_connection st s Hc Hs) as Hconn.
  unfold disconnect_from_cassandra, bind, get. rewrite Hconn.
  unfold session_shutdown, bind, modify. rewrite call_eq.
  assert (forall st', self st' = self st -> forall statement,
    execute_cql statement st'
    = (answer (world st') (CExecute s statement (Some 60%Z)),
       set_world (log_call (CExecute s statement (Some 60%Z)) (world st')) st')
    /\ fst (execute_cql statement st') <> Raise (Exception no_connection_msg)) as Hex.
  { intros st' Hself statement.
    assert (_connection (self st') = SessionRef s) as H' by (by rewrite Hself).
    rewrite (execute_cql_session st' s statement H'). split; [done|].
    simpl. unfold answer. by destruct (drv _ _). }
  unfold answer. destruct (drv (world st) (CShutdown s)) as [rows|cls msg] eqn:Ed.
  - eexists _, _. split; [done|]. simpl. repeat split; try done.
    + apply list_elem_of_here.
    + by apply Hex.
    + by apply Hex.
  - eexists _, _. split; [done|]. simpl. repeat split; try done.
    + by apply Hex.
    + by apply Hex.
Qed.

(** ** Projecting a column *)

Lemma column_values_present column rows acc :
  (forall row, row ∈ rows -> is_Some (getattr row column)) ->
  exists values,
    column_values column rows acc = Ok (acc ++ values)
    /\ Forall2 (fun row v => exists x, getattr row column = Some x /\ v = py_str x)
         rows values.
Proof.
  revert acc. induction rows as [|row rows IH]; intros acc Hall; simpl.
  - exists []. by rewrite app_nil_r.
  - destruct (Hall row) as [x Hx]; [apply list_elem_of_here|]. rewrite Hx.
    destruct (IH (acc ++ [py_str x])) as (values & Hv & Hf).
    { intros r Hr. apply Hall. by apply list_elem_of_further. }
    exists (py_str x :: values). split.
    + rewrite Hv. by rewrite <- app_assoc.
    + constructor; [by exists x | done].
Qed.

Lemma column_values_absent column before item after acc :
  (forall row, row ∈ before -> is_Some (getattr row column)) ->
  getattr item column = None ->
  column_values column (before ++ item :: after) acc
  = Raise (AttributeError ("'Row' object has no attribute '" +:+ column +:+ "'")).
Proof.
  revert acc. induction before as [|row before IH]; intros acc Hall Hnone; simpl.
  - by rewrite Hnone.
  - destruct (Hall row) as [x Hx]; [apply list_elem_of_here|]. rewrite Hx.
    apply IH; [|done]. intros r Hr. apply Hall. by apply list_elem_of_further.
Qed.

(** C5. When the statement executes to [rows] and every row has the column,
    [get_column] returns one string per row, in the order of the rows, each
    the [str] of that row's value for the column; its only effect is that of
    executing the statement. *)
Theorem get_column_all_present (st st' : State) (column statement : string)
    (rows : ResultSet) :
  execute_cql statement st = (Ok rows, st') ->
  (forall row, row ∈ rows -> is_Some (getattr row column)) ->
  exists values,
    get_column column statement st = (Ok values, st')
    /\ length values = length rows
    /\ Forall2 (fun row v => exists x, getattr row column = Some x /\ v = py_str x)
         rows values.
Proof.
  intros He Hall.
  destruct (column_values_present column rows [] Hall) as (values & Hv & Hf).
  exists values. split; [|split; [by erewrite <- Forall2_length | done]].
  unfold get_column, bind. rewrite He, Hv. done.
Qed.

(** C6 (as amended).  For a name that can only be a column, when the
    statement executes to rows of which [item] is the first without the
    column, [get_column] raises the [AttributeError] of [getattr] for that
    name and returns no values. *)
Theorem get_column_absent_column_raises (st st' : State) (column statement : string)
    (before after : ResultSet) (item : Row) :
  plain_column_name column = true ->
  execute_cql statement st = (Ok (before ++ item :: after), st') ->
  (forall row, row ∈ before -> is_Some (getattr row column)) ->
  getattr item column = None ->
  get_column column statement st
  = (Raise (AttributeError ("'Row' object has no attribute '" +:+ column +:+ "'")), st').
Proof.
  intros _ He Hall Hnone. unfold get_column, bind. rewrite He.
  by rewrite (column_values_absent column before item after [] Hall Hnone).
Qed.

(** ** Failures of the driver *)


(** ** Registering under an alias that is in use *)

Lemma connect_when_driver_connects a st :
  driver_connects drv a (world st) = true ->
  exists w,
    connect_to_cassandra a st
    = (Ok (S (length (entries st))),
       mkState (mkSelf (SessionRef (sessions_created (world st)))
                  (snd (register normalize (sessions_created (world st)) (alias a)
                          (_cache (self st)))))
               w).
Proof.
  unfold driver_connects, connect_to_cassandra, try_except, cluster_connect,
    bind, get, modify, ret.
  rewrite call_eq. unfold answer.
  destruct (drv (world st) _) as [rows|cls msg]; [|done]. simpl.
  destruct (keyspace a) as [ks|].
  - rewrite call_eq. unfold answer. simpl.
    destruct (drv _ (CSetKeyspace _ _)); [|done]. intros _. simpl.
    eexists. unfold entries, set_cache. simpl. rewrite length_app, Nat.add_1_r. done.
  - intros _. simpl.
    eexists. unfold entries, set_cache. simpl. rewrite length_app, Nat.add_1_r. done.
Qed.

(** C7 (as amended). An alias that is already bound does not make
    [connect_to_cassandra] fail: when the driver connects, the new session
    is appended under the next index and becomes current, the alias now
    names the new index, and the other aliases keep their entries. *)
Theorem connect_rebinds_alias (st : State) (a : ConnectArgs) (al : string) (j : nat) :
  alias a = Some al ->
  _aliases (_cache (self st)) !! normalize al = Some j ->
  driver_connects drv a (world st) = true ->
  exists st',
    connect_to_cassandra a st = (Ok (S (length (entries st))), st')
    /\ entries st' = entries st ++ [sessions_created (world st)]
    /\ current (_cache (self st')) = Some (sessions_created (world st))
    /\ _connection (self st') = SessionRef (sessions_created (world st))
    /\ _aliases (_cache (self st')) !! normalize al = Some (S (length (entries st)))
    /\ forall other, other <> normalize al ->
         _aliases (_cache (self st')) !! other = _aliases (_cache (self st)) !! other.
Proof.
  intros Hal Hj Hd. destruct (connect_when_driver_connects a st Hd) as [w Hc].
  eexists. split; [exact Hc|]. unfold entries. simpl. rewrite Hal.
  repeat split.
  - rewrite lookup_insert_eq. by rewrite length_app, Nat.add_1_r.
  - intros other Hne. by rewrite lookup_insert_ne.
Qed.

(** ** Index assignment, in full *)

Lemma close_each_outcome conns st :
  if shutdowns_return drv conns (world st)
  then exists st', close_each drv conns st = (Ok tt, st')
  else exists e st', close_each drv conns st = (Raise e, st').
Proof.
  revert st. induction conns as [|c conns IH]; intros st; simpl.
  - by eexists.
  - unfold bind at 1, session_shutdown, bind, modify. rewrite call_eq. unfold answer.
    destruct (drv (world st) (CShutdown c)) as [rows|cls msg].
    + apply (IH (set_world (mark_shut_down c
                   (world (set_world (log_call (CShutdown c) (world st)) st)))
                   (set_world (log_call (CShutdown c) (world st)) st))).
    + by eexists _, _.
Qed.

(** C1 (as amended).  On a fresh library the indices returned by successful
    [connect_to_cassandra] calls are 1, 2, 3, ... in order within every
    stretch between two [close_all_cassandra_connections] calls that
    returned, and start again at 1 after each of those.  A connect that the
    driver lets through does return the next index, one more than the number
    of entries.  A [close_all] returns, with the cache emptied, exactly when
    every [shutdown] of its loop returns; otherwise it raises and the
    entries, hence the numbering, stay as they were. *)
Theorem connect_indices_restart_when_close_all_returns :
  (forall kws : list Keyword,
     Forall (fun l => l = seq 1 (length l)) (index_runs (fst (run kws init)) []))
  /\ (forall (st : State) (a : ConnectArgs),
        driver_connects drv a (world st) = true ->
        exists st',
          connect_to_cassandra a st = (Ok (S (length (entries st))), st')
          /\ length (entries st') = S (length (entries st)))
  /\ (forall st : State,
        shutdowns_return drv (entries st) (world st) = true ->
        exists st',
          close_all_cassandra_connections st = (Ok tt, st') /\ entries st' = [])
  /\ (forall st : State,
        shutdowns_return drv (entries st) (world st) = false ->
        exists e st',
          close_all_cassandra_connections st = (Raise e, st')
          /\ entries st' = entries st).
Proof.
  split; [intros kws; by apply index_runs_from|].
  split; [|split].
  - intros st a Hd. destruct (connect_when_driver_connects a st Hd) as [w Hc].
    eexists. split; [exact Hc|]. unfold entries. simpl.
    by rewrite length_app, Nat.add_1_r.
  - intros st Hs. pose proof (close_each_outcome (entries st) st) as Ho.
    rewrite Hs in Ho. destruct Ho as [st1 Ho].
    unfold close_all_cassandra_connections, close_all, bind, get, empty_cache, modify, ret.
    fold (entries st). rewrite Ho. by eexists.
  - intros st Hs. pose proof (close_each_outcome (entries st) st) as Ho.
    rewrite Hs in Ho. destruct Ho as (e & st1 & Ho).
    unfold close_all_cassandra_connections, close_all, bind, get, empty_cache, modify, ret.
    fold (entries st). rewrite Ho. exists e, st1. split; [done|].
    apply close_each_raise in Ho as [Hself _]. unfold entries. by rewrite Hself.
Qed.

End Facts.


(** ** The scenarios of the specification, run *)

Example scenario_results :
  map snd (fst (run (driver_ok two_rows) normalize_id py_int_digit scenario init))
  = [ Ok (RIndex 1); Ok (RIndex 2); Ok (RPrevious (Some 2)); Ok (RPrevious (Some 1));
      Ok (RStrings ["test"; "OpsCenter"]); Ok RNone; Ok (RIndex 1) ].
Proof. vm_compute. reflexivity. Qed.

Example scenario_index_runs :
  index_runs (fst (run (driver_ok two_rows) normalize_id py_int_digit scenario init)) []
  = [[1; 2]; [1]].
Proof. vm_compute. reflexivity. Qed.

Example scenario_calls :
  calls (world (snd (run (driver_ok two_rows) normalize_id py_int_digit scenario init)))
  = [ CConnect "10.0.0.1" (PInt 9042) None;
      CConnect "10.0.0.2" (PInt 9042) None;
      CExecute 1 "SELECT * FROM system.schema_keyspaces" (Some 60%Z);
      CShutdown 0; CShutdown 1;
      CConnect "10.0.0.3" (PInt 9042) None ].
Proof. vm_compute. reflexivity. Qed.

Lemma st_two_reachable : reachable (driver_ok two_rows) normalize_id py_int_digit st_two.
Proof. exists (take 2 scenario). reflexivity. Qed.

Lemma st_failing_reachable : reachable driver_failing normalize_id py_int_digit st_failing.
Proof. by eexists. Qed.

(** ** Instances of the theorems *)

Lemma connect_indices_restart_when_close_all_returns_witness :
  (exists st',
     connect_to_cassandra (driver_ok two_rows) normalize_id (args "10.0.0.3" None) st_two
     = (Ok 3, st')
     /\ length (entries st') = 3)
  /\ (exists st',
        close_all_cassandra_connections (driver_ok two_rows) st_two = (Ok tt, st')
        /\ entries st' = [])
  /\ (exists e st',
        close_all_cassandra_connections (driver_shutdown_fails 1) st_three = (Raise e, st')
        /\ entries st' = entries st_three).
Proof.
  split; [|split].
  - apply (proj1 (proj2 (connect_indices_restart_when_close_all_returns
                           (driver_ok two_rows) normalize_id py_int_digit))
             st_two (args "10.0.0.3" None)).
    reflexivity.
  - apply (proj1 (proj2 (proj2 (connect_indices_restart_when_close_all_returns
                                  (driver_ok two_rows) normalize_id py_int_digit)))
             st_two).
    reflexivity.
  - apply (proj2 (proj2 (proj2 (connect_indices_restart_when_close_all_returns
                                  (driver_shutdown_fails 1) normalize_id py_int_digit)))
             st_three).
    reflexivity.
Defined.

Lemma switch_returns_previous_index_witness :
  reachable (driver_ok two_rows) normalize_id py_int_digit st_two
  /\ entries st_two <> []
  /\ exists s old j,
       entries st_two !! (1 - 1) = Some s
       /\ current (_cache (self st_two)) = Some old
       /\ 1 <= j /\ entries st_two !! (j - 1) = Some old
       /\ switch_cassandra_connection normalize_id py_int_digit (KStr "c1") st_two
          = (Ok (Some j),
             mkState (mkSelf (SessionRef s)
                        (mkCache (Some s) (entries st_two) (_aliases (_cache (self st_two)))))
                     (world st_two))
       /\ current_index (mkCache (Some s) (entries st_two) (_aliases (_cache (self st_two))))
          = Some 1.
Proof.
  assert (entries st_two <> []) as Hne by (vm_compute; discriminate).
  split; [apply st_two_reachable|]. split; [exact Hne|].
  exact (switch_returns_previous_index (driver_ok two_rows) normalize_id py_int_digit
           st_two (KStr "c1") st_two_reachable Hne).
Defined.

Lemma execute_on_empty_cache_witness :
  reachable (driver_ok two_rows) normalize_id py_int_digit init
  /\ entries init = []
  /\ execute_cql (driver_ok two_rows) "SELECT now() FROM system.local" init
     = (Raise (Exception no_connection_msg), init)
  /\ execute_async_cql (driver_ok two_rows) "SELECT now() FROM system.local" init
     = (Raise (Exception no_connection_msg), init).
Proof.
  assert (reachable (driver_ok two_rows) normalize_id py_int_digit init) as Hr
    by (exists []; reflexivity).
  split; [exact Hr|]. split; [reflexivity|].
  apply (execute_on_empty_cache (driver_ok two_rows) normalize_id py_int_digit init
           "SELECT now() FROM system.local" Hr).
  reflexivity.
Defined.

Lemma failed_switch_changes_nothing_witness :
  resolve_alias_or_index normalize_id py_int_digit (_cache (self st_two)) (KStr "c9") = None
  /\ switch_cassandra_connection normalize_id py_int_digit (KStr "c9") st_two
     = (Raise (RuntimeError "Non-existing index or alias 'c9'."), st_two)
  /\ legacy_switch_cassandra_connection normalize_id py_int_digit (KStr "c9") st_two
     = (Raise (RuntimeError "Non-existing index or alias 'c9'."), st_two).
Proof.
  assert (resolve_alias_or_index normalize_id py_int_digit (_cache (self st_two)) (KStr "c9")
          = None) as Hres by (vm_compute; reflexivity).
  split; [exact Hres|].
  exact (failed_switch_changes_nothing normalize_id py_int_digit st_two (KStr "c9") Hres).
Defined.

Lemma execute_cql_forwards_in_each_copy_witness :
  execute_cql (driver_ok two_rows) "SELECT * FROM system.schema_keyspaces" st_two
  = (answer (driver_ok two_rows) (world st_two)
       (CExecute 1 "SELECT * FROM system.schema_keyspaces" (Some 60%Z)),
     set_world
       (log_call (CExecute 1 "SELECT * FROM system.schema_keyspaces" (Some 60%Z))
          (world st_two)) st_two)
  /\ legacy_execute_cql (driver_ok two_rows) "SELECT * FROM system.schema_keyspaces" st_two
     = (answer (driver_ok two_rows) (world st_two)
          (CExecute 1 "SELECT * FROM system.schema_keyspaces" None),
        set_world
          (log_call (CExecute 1 "SELECT * FROM system.schema_keyspaces" None)
             (world st_two)) st_two).
Proof.
  apply (execute_cql_forwards_in_each_copy (driver_ok two_rows) normalize_id py_int_digit
           st_two 1 "SELECT * FROM system.schema_keyspaces").
  - apply st_two_reachable.
  - vm_compute. reflexivity.
Defined.

Lemma disconnect_keeps_cache_witness :
  exists r st',
    disconnect_from_cassandra (driver_ok two_rows) st_two = (r, st')
    /\ self st' = self st_two
    /\ calls (world st') = calls (world st_two) ++ [CShutdown 1]
    /\ (forall rows, driver_ok two_rows (world st_two) (CShutdown 1) = Returns rows ->
          r = Ok tt /\ 1 ∈ shut_down (world st'))
    /\ forall statement,
         execute_cql (driver_ok two_rows) statement st'
         = (answer (driver_ok two_rows) (world st') (CExecute 1 statement (Some 60%Z)),
            set_world (log_call (CExecute 1 statement (Some 60%Z)) (world st')) st')
         /\ fst (execute_cql (driver_ok two_rows) statement st')
            <> Raise (Exception no_connection_msg).
Proof.
  apply (disconnect_keeps_cache (driver_ok two_rows) normalize_id py_int_digit st_two 1).
  - apply st_two_reachable.
  - vm_compute. reflexivity.
Defined.

Lemma get_column_all_present_witness :
  exists values,
    get_column (driver_ok two_rows) "keyspace_name"
      "SELECT * FROM system.schema_keyspaces" st_two
    = (Ok values,
       set_world
         (log_call (CExecute 1 "SELECT * FROM system.schema_keyspaces" (Some 60%Z))
            (world st_two)) st_two)
    /\ length values = length two_rows
    /\ Forall2 (fun row v => exists x, getattr row "keyspace_name" = Some x /\ v = py_str x)
         two_rows values.
Proof.
  apply (get_column_all_present (driver_ok two_rows) st_two).
  - vm_compute. reflexivity.
  - intros row Hrow.
    repeat (apply elem_of_cons in Hrow as [->|Hrow]; [by eexists|]).
    by apply elem_of_nil in Hrow.
Defined.

Lemma get_column_absent_column_raises_witness :
  get_column (driver_ok two_rows) "strategy_class"
    "SELECT * FROM system.schema_keyspaces" st_two
  = (Raise (AttributeError "'Row' object has no attribute 'strategy_class'"),
     set_world
       (log_call (CExecute 1 "SELECT * FROM system.schema_keyspaces" (Some 60%Z))
          (world st_two)) st_two).
Proof.
  apply (get_column_absent_column_raises (driver_ok two_rows) st_two _ "strategy_class" _
           []
           [ [("keyspace_name", VText "OpsCenter"); ("durable_writes", VBool true)] ]
           [("keyspace_name", VText "test"); ("durable_writes", VBool true)]).
  - reflexivity.
  - vm_compute. reflexivity.
  - intros row Hrow. by apply elem_of_nil in Hrow.
  - reflexivity.
Defined.


Lemma connect_rebinds_alias_witness :
  exists st',
    connect_to_cassandra (driver_ok two_rows) normalize_id (args "10.0.0.9" (Some "c1")) st_two
    = (Ok 3, st')
    /\ entries st' = entries st_two ++ [2]
    /\ current (_cache (self st')) = Some 2
    /\ _connection (self st') = SessionRef 2
    /\ _aliases (_cache (self st')) !! "c1" = Some 3
    /\ forall other, other <> "c1" ->
         _aliases (_cache (self st')) !! other = _aliases (_cache (self st_two)) !! other.
Proof.
  apply (connect_rebinds_alias (driver_ok two_rows) normalize_id st_two
           (args "10.0.0.9" (Some "c1")) "c1" 1).
  - reflexivity.
  - vm_compute. reflexivity.
  - reflexivity.
Defined.

(** ** Where the code departs from the specification *)

(** C1, as stated, fails: a [close_all_cassandra_connections] during which
    a [shutdown] raises resets nothing, and the connection after it gets
    index 3, not 1. *)
Lemma close_all_raising_keeps_numbering :
  map snd (fst (run (driver_shutdown_fails 1) normalize_id py_int_digit
                  close_all_interrupted init))
  = [ Ok (RIndex 1); Ok (RIndex 2);
      Raise (DriverError "OperationTimedOut" "shutdown timed out");
      Ok (RIndex 3) ].
Proof. vm_compute. reflexivity. Qed.

(** C8, as stated, fails for the older copy: its [execute_cql] calls the
    driver without a timeout. *)
Lemma legacy_execute_cql_sends_no_timeout :
  calls (world (snd (legacy_execute_cql (driver_ok two_rows) "SELECT now() FROM system.local"
                       st_two)))
  = calls (world st_two) ++ [CExecute 1 "SELECT now() FROM system.local" None]
  /\ CExecute 1 "SELECT now() FROM system.local" None
     <> CExecute 1 "SELECT now() FROM system.local" (Some 60%Z).
Proof. split; [vm_compute; reflexivity | discriminate]. Qed.


(** C6, as stated, fails: on rows without the column, [get_column] ends
    with the [AttributeError] of [getattr], not with an error of the
    library's own. *)
Lemma absent_column_raises_attribute_error :
  fst (get_column (driver_ok two_rows) "strategy_class"
         "SELECT * FROM system.schema_keyspaces" st_two)
  = Raise (AttributeError "'Row' object has no attribute 'strategy_class'")
  /\ ~ exists e, fst (get_column (driver_ok two_rows) "strategy_class"
                        "SELECT * FROM system.schema_keyspaces" st_two) = Raise e
                 /\ raised_by_library e = true.
Proof.
  split; [vm_compute; reflexivity|].
  intros (e & He & Hlib). vm_compute in He. by injection He as <-.
Qed.

(** C7, as stated, fails: connecting twice under the alias "c1" succeeds
    both times; both sessions are registered, and the alias leads to the
    second. *)
Lemma duplicate_alias_accepted :
  map snd (fst (run (driver_ok two_rows) normalize_id py_int_digit same_alias_twice init))
  = [ Ok (RIndex 1); Ok (RIndex 2); Ok (RPrevious (Some 2)) ]
  /\ entries (snd (run (driver_ok two_rows) normalize_id py_int_digit same_alias_twice init))
     = [0; 1]
  /\ current (_cache (self (snd (run (driver_ok two_rows) normalize_id py_int_digit
                                   same_alias_twice init))))
     = Some 1.
Proof. vm_compute. repeat split. Qed.

(** * Further properties of the keywords *)

Section More.

Variable drv : Driver.
Variable normalize : string -> string.
Variable py_int : string -> option Z.
Variable session_keyspace : World -> Session -> option string.

Local Abbreviation connect_to_cassandra := (connect_to_cassandra drv normalize).
Local Abbreviation close_all_cassandra_connections := (close_all_cassandra_connections drv).
Local Abbreviation switch_cassandra_connection := (switch_cassandra_connection normalize py_int).
Local Abbreviation disconnect_from_cassandra := (disconnect_from_cassandra drv).
Local Abbreviation execute_cql := (execute_cql drv).
Local Abbreviation execute_async_cql := (execute_async_cql drv).
Local Abbreviation get_async_result := (get_async_result drv).
Local Abbreviation get_column := (get_column drv).
Local Abbreviation get_column_from_schema_keyspaces := (get_column_from_schema_keyspaces drv).
Local Abbreviation keyword := (keyword drv normalize py_int).
Local Abbreviation run := (run drv normalize py_int).
Local Abbreviation reachable := (reachable drv normalize py_int).
Local Abbreviation answer := (answer drv).
Local Abbreviation keyspace_property := (keyspace_property session_keyspace).

(** ** Connecting *)

(** [connect_to_cassandra], case by case on what the driver does. *)
Lemma connect_to_cassandra_eq a st :
  connect_to_cassandra a st
  = let c := CConnect (host a) (port a) (auth_provider a) in
    let w := world st in
    let s := sessions_created w in
    let registered :=
      mkSelf (SessionRef s) (snd (register normalize s (alias a) (_cache (self st)))) in
    match drv w c with
    | Fails cls msg =>
        (Raise (Exception ("Connect to Cassandra error: " +:+ msg)),
         set_world (log_call c w) st)
    | Returns _ =>
        let w1 := new_session (log_call c w) in
        match keyspace a with
        | None => (Ok (S (length (entries st))), mkState registered w1)
        | Some ks =>
            match drv w1 (CSetKeyspace s ks) with
            | Returns _ =>
                (Ok (S (length (entries st))),
                 mkState registered (log_call (CSetKeyspace s ks) w1))
            | Fails cls msg =>
                (Raise (Exception ("Connect to Cassandra error: " +:+ msg)),
                 set_world (log_call (CSetKeyspace s ks) w1) st)
            end
        end
    end.
Proof.
  unfold connect_to_cassandra, try_except, cluster_connect, bind, get, modify, ret, raise.
  rewrite call_eq. unfold answer. simpl.
  destruct (drv (world st) _) as [rows|cls msg]; simpl; [|done].
  destruct (keyspace a) as [ks|]; simpl.
  - rewrite call_eq. unfold answer. simpl.
    destruct (drv _ (CSetKeyspace _ _)) as [rows2|cls msg]; simpl; [|done].
    unfold entries, set_cache, set_connection. simpl.
    by rewrite length_app, Nat.add_1_r.
  - unfold entries, set_cache, set_connection. simpl.
    by rewrite length_app, Nat.add_1_r.
Qed.

(** X1. Whatever keywords a test has run, with whatever outcomes, the
    library object is consistent: the cache entries are distinct sessions
    the driver created; the cache's current connection is one of them and is
    what [self._connection] holds, or there is none, the cache is empty and
    [self._connection] is false; every alias names the index of an entry. *)
Theorem library_invariant (st : State) :
  reachable st -> consistent st.
Proof. apply reachable_consistent. Qed.

(** X2. In a reachable state, the index a successful [connect_to_cassandra]
    returns is the number of entries afterwards and the [current_index] of
    the cache afterwards: the session just opened, which was no entry
    before, is appended at that index and is the connection the next
    statement goes to. *)
Theorem connect_becomes_current (st st' : State) (a : ConnectArgs) (i : nat) :
  reachable st ->
  connect_to_cassandra a st = (Ok i, st') ->
  let s := sessions_created (world st) in
  (s ∉ entries st)
  /\ entries st' = entries st ++ [s]
  /\ i = length (entries st')
  /\ entries st' !! (i - 1) = Some s
  /\ current_index (_cache (self st')) = Some i
  /\ _connection (self st') = SessionRef s
  /\ forall statement,
       calls (world (snd (execute_cql statement st')))
       = calls (world st') ++ [CExecute s statement (Some 60%Z)].
Proof.
  intros Hr E s. apply reachable_consistent in Hr as Hc.
  assert (consistent st') as Hc'.
  { eapply (keyword_consistent drv normalize py_int (ConnectToCassandra a) st (Ok (RIndex i)));
      [|done]. simpl. unfold returning, bind, ret. by rewrite E. }
  apply connect_cases in E as [(s0 & -> & [= ->] & Hself & Hlt)|[[e [=]] _]].
  assert (entries st' = entries st ++ [s]) as He by (unfold entries; by rewrite Hself).
  assert (_connection (self st') = SessionRef s) as Hconn by (by rewrite Hself).
  assert (length (entries st') = S (length (entries st))) as Hlen
    by (by rewrite He, length_app, Nat.add_1_r).
  assert (entries st' !! (S (length (entries st)) - 1) = Some s) as Hl.
  { rewrite He. apply list_lookup_middle. simpl. by rewrite Nat.sub_0_r. }
  repeat split; try done.
  - intros Hin. pose proof (entries_created st Hc s Hin). unfold s in *. lia.
  - unfold current_index.
    assert (current (_cache (self st')) = Some s) as -> by (by rewrite Hself).
    fold (entries st').
    rewrite (index_from_complete 0 s _ (length (entries st)) (entries_nodup st' Hc')).
    + done.
    + simpl in Hl. by rewrite Nat.sub_0_r in Hl.
  - intros statement. by rewrite (execute_cql_session drv st' s statement Hconn).
Qed.

(** X3. A [connect_to_cassandra] that fails leaves the library object as it
    was (same current connection, entries and aliases) and shuts no session
    down, whether the cluster refused the connection or [set_keyspace]
    failed on the session just opened. *)
Theorem connect_failure_keeps_library (st st' : State) (a : ConnectArgs) (e : PyExc) :
  connect_to_cassandra a st = (Raise e, st') ->
  self st' = self st
  /\ shut_down (world st') = shut_down (world st)
  /\ raised_by_library e = true.
Proof.
  rewrite connect_to_cassandra_eq. simpl.
  destruct (drv (world st) _) as [rows|cls msg].
  - destruct (keyspace a) as [ks|]; [|done].
    destruct (drv _ (CSetKeyspace _ _)) as [rows2|cls msg]; [done|].
    by intros [= <- <-].
  - by intros [= <- <-].
Qed.

(** X4. When the cluster connects but [set_keyspace] on the new session
    raises, [connect_to_cassandra] raises the wrapped error, registers
    nothing, and leaves the session it opened behind: the driver has one
    session more, and the two driver calls made are the connect and the
    [set_keyspace], no [shutdown]. *)
Theorem connect_keyspace_failure_leaks_session (st : State) (a : ConnectArgs)
    (ks cls msg : string) (rows : ResultSet) :
  let c := CConnect (host a) (port a) (auth_provider a) in
  let s := sessions_created (world st) in
  keyspace a = Some ks ->
  drv (world st) c = Returns rows ->
  drv (new_session (log_call c (world st))) (CSetKeyspace s ks) = Fails cls msg ->
  exists st',
    connect_to_cassandra a st
    = (Raise (Exception ("Connect to Cassandra error: " +:+ msg)), st')
    /\ self st' = self st
    /\ sessions_created (world st') = S (sessions_created (world st))
    /\ calls (world st') = calls (world st) ++ [c; CSetKeyspace s ks]
    /\ shut_down (world st') = shut_down (world st).
Proof.
  intros c s Hks Hc Hk. rewrite connect_to_cassandra_eq. simpl.
  fold c. rewrite Hc, Hks. fold s. rewrite Hk.
  eexists. split; [done|]. simpl. repeat split. by rewrite <- app_assoc.
Qed.

(** X5. The driver calls of one [connect_to_cassandra] whose port is an
    integer (so that [int(port)] cannot raise before the driver is reached):
    the connect, with the host, the port and the auth provider built from
    the arguments; then [set_keyspace] on the new session if and only if the
    connect returned and a keyspace was given; nothing else. *)
Theorem connect_driver_calls (st : State) (a : ConnectArgs) (p : Z) :
  port a = PInt p ->
  let c := CConnect (host a) (PInt p) (auth_provider a) in
  calls (world (snd (connect_to_cassandra a st)))
  = calls (world st) ++ c ::
      match drv (world st) c, keyspace a with
      | Returns _, Some ks => [CSetKeyspace (sessions_created (world st)) ks]
      | _, _ => []
      end.
Proof.
  intros Hp c. rewrite connect_to_cassandra_eq. simpl. rewrite Hp. fold c.
  destruct (drv (world st) c) as [rows|cls msg]; [|done].
  destruct (keyspace a) as [ks|]; [|done].
  destruct (drv _ (CSetKeyspace _ _)); simpl; by rewrite <- app_assoc.
Qed.

(** X6. Without a username (none, or the empty string) the password plays
    no part: two calls of [connect_to_cassandra] that differ only in the
    password do the same and connect without an auth provider. *)
Theorem connect_ignores_password_without_username (st : State) (a : ConnectArgs)
    (other_password : string) :
  username a = None \/ username a = Some "" ->
  auth_provider a = None
  /\ connect_to_cassandra
       (mkArgs (host a) (port a) (alias a) (keyspace a) (username a) other_password) st
     = connect_to_cassandra a st.
Proof.
  intros Hu.
  assert (forall p, auth_provider
            (mkArgs (host a) (port a) (alias a) (keyspace a) (username a) p) = None) as Hnone.
  { intros p. unfold auth_provider. simpl. by destruct Hu as [->| ->]. }
  assert (auth_provider a = None) as Ha.
  { unfold auth_provider. by destruct Hu as [->| ->]. }
  split; [done|].
  rewrite !connect_to_cassandra_eq. simpl. by rewrite Hnone, Ha.
Qed.

(** ** What stays in place *)

(** What a keyword can do to the library object: nothing, a registration, a
    reset, or a move of the current connection. *)
Lemma keyword_self kw st r st' :
  keyword kw st = (r, st') ->
  self st' = self st
  \/ (exists a, kw = ConnectToCassandra a
        /\ r = Ok (RIndex (S (length (entries st))))
        /\ self st' = mkSelf (SessionRef (sessions_created (world st)))
             (snd (register normalize (sessions_created (world st)) (alias a)
                     (_cache (self st)))))
  \/ (kw = CloseAllCassandraConnections /\ r = Ok RNone
        /\ self st' = mkSelf NoConnectionObj cache0)
  \/ (exists key s, kw = SwitchCassandraConnection key
        /\ self st' = mkSelf (SessionRef s)
             (mkCache (Some s) (entries st) (_aliases (_cache (self st))))).
Proof.
  destruct kw; simpl; unfold returning, bind, ret.
  - destruct (connect_to_cassandra a st) as [r1 st1] eqn:E.
    apply connect_cases in E as [(s & -> & -> & Hself & Hlt)|[[e ->] [Hss _]]].
    + intros [= <- <-]. right. left. by exists a.
    + intros [= <- <-]. by left.
  - destruct (disconnect_from_cassandra st) as [r1 st1] eqn:E.
    apply disconnect_same_self in E as [Hss _]. intros Hr. left.
    by assert (st' = st1) as -> by (destruct r1; by inversion Hr).
  - destruct (close_all_cassandra_connections st) as [r1 st1] eqn:E.
    apply close_all_cases in E as [(-> & Hself & _)|[[e ->] [Hss _]]].
    + intros [= <- <-]. right. right. by left.
    + intros [= <- <-]. by left.
  - destruct (switch_cassandra_connection index_or_alias st) as [r1 st1] eqn:E.
    apply switch_cases in E. intros Hr.
    assert (st' = st1) as -> by (destruct r1; by inversion Hr).
    destruct (get_connection _ _ _ _) as [s|e]; destruct E as [_ ->].
    + right. right. right. by exists index_or_alias, s.
    + by left.
  - destruct (execute_cql statement st) as [r1 st1] eqn:E.
    apply execute_cql_same_self in E as [Hss _]. intros Hr. left.
    by assert (st' = st1) as -> by (destruct r1; by inversion Hr).
  - destruct (execute_async_cql statement st) as [r1 st1] eqn:E.
    apply execute_async_cql_same_self in E as [Hss _]. intros Hr. left.
    by assert (st' = st1) as -> by (destruct r1; by inversion Hr).
  - destruct (get_async_result future st) as [r1 st1] eqn:E.
    apply get_async_result_same_self in E as [Hss _]. intros Hr. left.
    by assert (st' = st1) as -> by (destruct r1; by inversion Hr).
  - destruct (get_column column statement st) as [r1 st1] eqn:E.
    apply get_column_same_self in E as [Hss _]. intros Hr. left.
    by assert (st' = st1) as -> by (destruct r1; by inversion Hr).
Qed.

(** X7. An entry keeps its index: after any keyword other than a successful
    [close_all_cassandra_connections], the session found at an index before
    is found at the same index after.  A disconnected session therefore
    stays registered, and no later connection takes an index in use. *)
Theorem entries_keep_their_index (kw : Keyword) (st st' : State) (r : Res Ret)
    (i : nat) (s : Session) :
  keyword kw st = (r, st') ->
  (kw, r) <> (CloseAllCassandraConnections, Ok RNone) ->
  entries st !! i = Some s ->
  entries st' !! i = Some s.
Proof.
  intros E Hne Hl.
  apply keyword_self in E
    as [Hs|[(a & _ & _ & Hs)|[(-> & -> & _)|(key & s' & _ & Hs)]]];
    unfold entries in *; try (rewrite Hs; simpl); try done.
  by apply lookup_app_l_Some.
Qed.

(** X8. An alias keeps its entry: after any keyword other than a successful
    [close_all_cassandra_connections] or a successful [connect_to_cassandra]
    under the same (normalised) alias, an alias bound to an index before is
    bound to the same index after. *)
Theorem aliases_keep_their_entry (kw : Keyword) (st st' : State) (r : Res Ret)
    (name : string) (i : nat) :
  keyword kw st = (r, st') ->
  (kw, r) <> (CloseAllCassandraConnections, Ok RNone) ->
  (forall a al j, kw = ConnectToCassandra a -> r = Ok (RIndex j) ->
                  alias a = Some al -> normalize al <> name) ->
  _aliases (_cache (self st)) !! name = Some i ->
  _aliases (_cache (self st')) !! name = Some i.
Proof.
  intros E Hne Hother Hl.
  apply keyword_self in E
    as [Hs|[(a & -> & -> & Hs)|[(-> & -> & _)|(key & s' & _ & Hs)]]];
    try (rewrite Hs; simpl); try done.
  destruct (alias a) as [al|] eqn:Ea; [|done].
  rewrite lookup_insert_ne; [done|]. by eapply Hother.
Qed.

(** ** Switching, continued *)

(** X9. [switch_cassandra_connection] never talks to the driver and never
    adds, removes or renames an entry, whether it succeeds or fails: the
    driver's world, the entries and the aliases are the same afterwards.
    In particular it does not look at whether the target was shut down. *)
Theorem switch_touches_only_current (st st' : State) (key : Key) (r : Res (option nat)) :
  switch_cassandra_connection key st = (r, st') ->
  world st' = world st
  /\ entries st' = entries st
  /\ _aliases (_cache (self st')) = _aliases (_cache (self st)).
Proof.
  intros E. apply switch_cases in E.
  destruct (get_connection _ _ _ _); by destruct E as [_ ->].
Qed.

(** X10. The round trip of the keyword's documentation: in a reachable
    state, a successful switch returns an index [j], and switching to [j]
    brings back exactly the state before the first switch, returning the
    index [i] the first switch went to. *)
Theorem switch_round_trip (st st1 : State) (key : Key) (r : option nat) :
  reachable st ->
  switch_cassandra_connection key st = (Ok r, st1) ->
  exists i j,
    r = Some j
    /\ resolve_alias_or_index normalize py_int (_cache (self st)) key = Some i
    /\ switch_cassandra_connection (KInt (Z.of_nat j)) st1 = (Ok (Some i), st).
Proof.
  intros Hr E. apply reachable_consistent in Hr as Hc.
  apply switch_cases in E. unfold get_connection in E.
  destruct (resolve_alias_or_index _ _ _ _) as [i|] eqn:Er; [|by destruct E].
  pose proof (resolve_in_range normalize py_int st key i Hc Er) as Hi.
  fold (entries st) in E.
  destruct (entries st !! (i - 1)) as [s|] eqn:Es; [|by destruct E].
  destruct E as [[= ->] ->].
  pose proof (current_entry st Hc) as Hcur.
  destruct (current (_cache (self st))) as [old|] eqn:Eo.
  - destruct Hcur as [Hin Hconn].
    destruct (current_index_entry st old Hc Eo) as (j & Hj & Hj1 & Hjl).
    exists i, j. split; [done|]. split; [done|].
    assert (j <= length (entries st)) as Hjlen.
    { apply lookup_lt_Some in Hjl. lia. }
    destruct (switch_cassandra_connection (KInt (Z.of_nat j)) _) as [r2 st2] eqn:E2.
    apply switch_cases in E2. unfold get_connection in E2.
    rewrite resolve_int_in_range in E2 by (simpl; fold (entries st); lia).
    rewrite Nat2Z.id in E2. simpl in E2. rewrite Hjl in E2.
    destruct E2 as [-> ->]. f_equal.
    + unfold current_index. simpl.
      rewrite (index_from_complete 0 s _ (i - 1) (entries_nodup st Hc) Es).
      do 2 f_equal. lia.
    + destruct st as [[conn [cur conns als]] w]. simpl in *. by subst.
  - destruct Hcur as [Hnil _]. rewrite Hnil in Es. done.
Qed.

(** X11. In a reachable state, switching by an alias and switching by the
    index the alias is bound to do the same: same result, same state. *)
Theorem switch_by_alias_or_its_index (st : State) (al : string) (i : nat) :
  reachable st ->
  _aliases (_cache (self st)) !! normalize al = Some i ->
  switch_cassandra_connection (KStr al) st
  = switch_cassandra_connection (KInt (Z.of_nat i)) st.
Proof.
  intros Hr Hal. apply reachable_consistent in Hr as Hc.
  pose proof (aliases_bound st Hc _ _ Hal) as Hi.
  assert (get_connection normalize py_int (_cache (self st)) (KStr al)
          = get_connection normalize py_int (_cache (self st)) (KInt (Z.of_nat i))) as Hg.
  { unfold get_connection.
    rewrite (resolve_bound_alias normalize py_int _ al i Hal).
    rewrite resolve_int_in_range by (fold (entries st); lia).
    by rewrite Nat2Z.id. }
  unfold switch_cassandra_connection, switch, bind, get, modify, ret.
  by rewrite Hg.
Qed.

(** ** Asynchronous statements *)

Lemma execute_async_cql_session st s statement :
  _connection (self st) = SessionRef s ->
  execute_async_cql statement st
  = let c := CExecuteAsync s statement in
    match drv (world st) c with
    | Returns _ =>
        (Ok (futures_created (world st)),
         set_world (new_future (log_call c (world st))) st)
    | Fails cls msg =>
        (Raise (DriverError cls msg), set_world (log_call c (world st)) st)
    end.
Proof.
  intros Hs. unfold execute_async_cql, session_execute_async, bind, get, modify, ret.
  rewrite Hs, call_eq. unfold answer. simpl.
  by destruct (drv (world st) _).
Qed.

(** X12. In a reachable state with a current connection [s],
    [execute_async_cql] makes exactly one driver call,
    [s.execute_async(statement)], with no timeout argument; when the call
    returns, the keyword returns a future that did not exist before, and
    when it raises, the driver's exception comes out unchanged.  The library
    object is the same afterwards. *)
Theorem execute_async_cql_forwards (st : State) (s : Session) (statement : string) :
  reachable st ->
  current (_cache (self st)) = Some s ->
  let c := CExecuteAsync s statement in
  let st' := snd (execute_async_cql statement st) in
  calls (world st') = calls (world st) ++ [c]
  /\ self st' = self st
  /\ match drv (world st) c with
     | Returns _ =>
         fst (execute_async_cql statement st) = Ok (futures_created (world st))
         /\ futures_created (world st') = S (futures_created (world st))
     | Fails cls msg =>
         fst (execute_async_cql statement st) = Raise (DriverError cls msg)
         /\ futures_created (world st') = futures_created (world st)
     end.
Proof.
  intros Hr Hs c st'. apply reachable_consistent in Hr as Hc.
  pose proof (current_connection st s Hc Hs) as Hconn.
  unfold st'. rewrite (execute_async_cql_session st s statement Hconn). simpl. fold c.
  by destruct (drv (world st) c).
Qed.

(** X13. [get_async_result] needs no connection: in any state, also with an
    empty cache, it makes exactly one driver call, [future.result()],
    returns the rows when the driver returns them, and leaves the library
    object as it was.  After [execute_async_cql] returned [future], the two
    driver calls are the [execute_async] and the [result] of that future. *)
Theorem get_async_result_any_state (st : State) (future : Future) :
  let c := CFutureResult future in
  let st' := snd (get_async_result future st) in
  calls (world st') = calls (world st) ++ [c]
  /\ self st' = self st
  /\ (forall rows, drv (world st) c = Returns rows ->
        fst (get_async_result future st) = Ok rows)
  /\ (forall s statement st0,
        _connection (self st0) = SessionRef s ->
        execute_async_cql statement st0 = (Ok future, st) ->
        calls (world st')
        = calls (world st0) ++ [CExecuteAsync s statement; CFutureResult future]).
Proof.
  intros c st'. unfold st', get_async_result, try_except, raise.
  rewrite call_eq. unfold answer. fold c.
  split; [by destruct (drv (world st) c)|].
  split; [by destruct (drv (world st) c)|].
  split.
  - intros rows Hd. by rewrite Hd.
  - intros s statement st0 Hs0 E.
    rewrite (execute_async_cql_session st0 s statement Hs0) in E. simpl in E.
    assert (calls (world st) = calls (world st0) ++ [CExecuteAsync s statement]) as Hcalls.
    { destruct (drv (world st0) _); by inversion E. }
    destruct (drv (world st) c); simpl; rewrite Hcalls, <- app_assoc; reflexivity.
Qed.

(** ** Projecting a column, continued *)

(** X14. [get_column] does to the driver and to the library exactly what
    [execute_cql] of the statement does, whatever the column: one statement
    at most is sent, and when [execute_cql] raises (no connection, or a
    failure of the driver), [get_column] raises the same exception. *)
Theorem get_column_effect_is_execute (st : State) (column statement : string) :
  snd (get_column column statement st) = snd (execute_cql statement st)
  /\ forall e, fst (execute_cql statement st) = Raise e ->
               fst (get_column column statement st) = Raise e.
Proof.
  unfold get_column, bind.
  destruct (execute_cql statement st) as [[rows|e0] st1]; simpl.
  - split; [|done]. by destruct (column_values column rows []).
  - split; [reflexivity|]. intros e [= ->]. reflexivity.
Qed.

Lemma column_values_ok column rows acc values :
  column_values column rows acc = Ok values ->
  exists tail,
    values = acc ++ tail
    /\ Forall2 (fun row v => exists x, getattr row column = Some x /\ v = py_str x)
         rows tail.
Proof.
  revert acc. induction rows as [|row rows IH]; intros acc; simpl.
  - intros [= <-]. exists []. by rewrite app_nil_r.
  - destruct (getattr row column) as [x|] eqn:Ex; [|done].
    intros H. apply IH in H as (tail & -> & Hf).
    exists (py_str x :: tail). split; [by rewrite <- app_assoc|].
    constructor; [by exists x | done].
Qed.

(** X15. For a name that can only be a column, [get_column] is all or
    nothing: when it returns a list, the statement was executed, every row
    of the result has the column, and the list holds, row by row and in
    order, the [str] of the row's value; a list is never a part of the
    rows. *)
Theorem get_column_returns_whole_column (st st' : State) (column statement : string)
    (values : list string) :
  plain_column_name column = true ->
  get_column column statement st = (Ok values, st') ->
  exists rows,
    execute_cql statement st = (Ok rows, st')
    /\ length values = length rows
    /\ Forall2 (fun row v => exists x, getattr row column = Some x /\ v = py_str x)
         rows values.
Proof.
  intros _. unfold get_column, bind.
  destruct (execute_cql statement st) as [[rows|e0] st1]; [|done].
  destruct (column_values column rows []) as [vs|e] eqn:Ev; [|done].
  unfold ret. intros [= <- <-]. exists rows. split; [done|].
  apply column_values_ok in Ev as (tail & -> & Hf). simpl.
  split; [by erewrite <- Forall2_length | done].
Qed.


(** ** Closing *)

Lemma session_shutdown_eq s st :
  session_shutdown drv s st
  = let c := CShutdown s in
    match drv (world st) c with
    | Returns _ => (Ok tt, set_world (mark_shut_down s (log_call c (world st))) st)
    | Fails cls msg => (Raise (DriverError cls msg), set_world (log_call c (world st)) st)
    end.
Proof.
  unfold session_shutdown, bind, modify. rewrite call_eq. unfold answer. simpl.
  by destruct (drv (world st) _).
Qed.

Lemma close_each_cons c conns st :
  close_each drv (c :: conns) st
  = match session_shutdown drv c st with
    | (Ok _, st1) => close_each drv conns st1
    | (Raise e, st1) => (Raise e, st1)
    end.
Proof. reflexivity. Qed.

(** The loop of [close_all]: either every entry was shut down, in order, or
    the loop stopped at the first entry whose [shutdown] raised. *)
Lemma close_each_trace conns st :
  let st' := snd (close_each drv conns st) in
  self st' = self st
  /\ sessions_created (world st') = sessions_created (world st)
  /\ match fst (close_each drv conns st) with
     | Ok _ =>
         calls (world st') = calls (world st) ++ map CShutdown conns
         /\ shut_down (world st') = rev conns ++ shut_down (world st)
     | Raise e =>
         exists closed s rest cls msg,
           conns = closed ++ s :: rest
           /\ e = DriverError cls msg
           /\ calls (world st') = calls (world st) ++ map CShutdown (closed ++ [s])
           /\ shut_down (world st') = rev closed ++ shut_down (world st)
     end.
Proof.
  revert st. induction conns as [|c conns IH]; intros st.
  - simpl. repeat split. by rewrite app_nil_r.
  - cbv zeta. rewrite close_each_cons, session_shutdown_eq. cbv zeta.
    destruct (drv (world st) (CShutdown c)) as [rows|cls msg] eqn:Ed.
    + specialize (IH (set_world (mark_shut_down c (log_call (CShutdown c) (world st))) st)).
      cbv zeta in IH. destruct IH as (Hs & Hn & IH).
      destruct (close_each drv conns _) as [[u|e] st1]; simpl in *.
      * destruct IH as [Hc Hsd]. split; [done|]. split; [done|]. split.
        -- rewrite Hc. by rewrite <- app_assoc.
        -- rewrite Hsd. by rewrite <- app_assoc.
      * destruct IH as (closed & s & rest & cls & msg & -> & -> & Hc & Hsd).
        split; [done|]. split; [done|].
        exists (c :: closed), s, rest, cls, msg.
        split; [done|]. split; [done|]. split.
        -- rewrite Hc. simpl. by rewrite <- app_assoc.
        -- rewrite Hsd. simpl. by rewrite <- app_assoc.
    + simpl. split; [done|]. split; [done|]. by exists [], c, conns, cls, msg.
Qed.

Lemma close_all_eq st :
  close_all_cassandra_connections st
  = match close_each drv (entries st) st with
    | (Ok _, st1) => (Ok tt, mkState (mkSelf NoConnectionObj cache0) (world st1))
    | (Raise e, st1) => (Raise e, st1)
    end.
Proof.
  unfold close_all_cassandra_connections, close_all, bind, get, empty_cache, modify, ret.
  fold (entries st). by destruct (close_each drv (entries st) st) as [[[]|e] st1].
Qed.

(** X17. When [close_all_cassandra_connections] returns, it has called
    [shutdown] on every entry once, in the order of their indices, and made
    no other driver call; every entry is shut down; the cache is empty with
    no alias and no current connection, and [self._connection] is the
    cache's placeholder. *)
Theorem close_all_shuts_every_entry (st st' : State) :
  close_all_cassandra_connections st = (Ok tt, st') ->
  self st' = mkSelf NoConnectionObj cache0
  /\ calls (world st') = calls (world st) ++ map CShutdown (entries st)
  /\ shut_down (world st') = rev (entries st) ++ shut_down (world st)
  /\ (forall s, s ∈ entries st -> s ∈ shut_down (world st')).
Proof.
  rewrite close_all_eq.
  pose proof (close_each_trace (entries st) st) as (Hs & Hn & Ht).
  destruct (close_each drv (entries st) st) as [[u|e] st1]; [|done].
  simpl in *. destruct Ht as [Hc Hsd]. intros [= <-]. simpl.
  repeat split; try done.
  intros s Hin. rewrite Hsd. apply elem_of_app. left.
  apply list_elem_of_In. apply -> in_rev. by apply list_elem_of_In.
Qed.


Lemma disconnect_eq st :
  disconnect_from_cassandra st
  = match _connection (self st) with
    | PyNone => (Raise (Exception no_connection_msg), st)
    | NoConnectionObj => (Raise (RuntimeError "No open connection."), st)
    | SessionRef s => session_shutdown drv s st
    end.
Proof.
  unfold disconnect_from_cassandra, bind, get, raise.
  by destruct (_connection (self st)).
Qed.

(** X19. After [close_all_cassandra_connections] returned, the keywords
    disagree on how an absent connection is reported: [execute_cql] and
    [execute_async_cql] raise the library's "There is no connection"
    exception, while [disconnect_from_cassandra] and the [keyspace]
    property, whose guard tests [is None], pass the guard and raise the
    error of the cache's placeholder.  None of them calls the driver or
    changes the state. *)
Theorem after_close_all_guards_differ (st st' : State) (statement : string) :
  close_all_cassandra_connections st = (Ok tt, st') ->
  execute_cql statement st' = (Raise (Exception no_connection_msg), st')
  /\ execute_async_cql statement st' = (Raise (Exception no_connection_msg), st')
  /\ disconnect_from_cassandra st' = (Raise (RuntimeError "No open connection."), st')
  /\ keyspace_property st' = (Raise (RuntimeError "No open connection."), st').
Proof.
  intros E. apply close_all_cases in E as [(_ & Hself & _)|[[e [=]] _]].
  rewrite disconnect_eq.
  unfold execute_cql, execute_async_cql, keyspace_property, bind, get, raise.
  by rewrite Hself.
Qed.

(** X20. [disconnect_from_cassandra] followed by
    [close_all_cassandra_connections]: the disconnected session is still an
    entry, so when both return, the session was sent [shutdown] twice, once
    by each keyword. *)
Theorem disconnect_then_close_all (st st1 st2 : State) (s : Session) :
  reachable st ->
  current (_cache (self st)) = Some s ->
  disconnect_from_cassandra st = (Ok tt, st1) ->
  close_all_cassandra_connections st1 = (Ok tt, st2) ->
  s ∈ entries st
  /\ calls (world st2) = calls (world st) ++ CShutdown s :: map CShutdown (entries st).
Proof.
  intros Hr Hs Hd Hc. apply reachable_consistent in Hr as Hcons.
  pose proof (current_entry st Hcons) as Hcur. rewrite Hs in Hcur.
  destruct Hcur as [Hin Hconn]. split; [done|].
  rewrite disconnect_eq, Hconn, session_shutdown_eq in Hd. simpl in Hd.
  destruct (drv (world st) (CShutdown s)); [|done].
  injection Hd as <-.
  rewrite close_all_eq in Hc.
  pose proof (close_each_trace
    (entries (set_world (mark_shut_down s (log_call (CShutdown s) (world st))) st))
    (set_world (mark_shut_down s (log_call (CShutdown s) (world st))) st))
    as (_ & _ & Ht).
  destruct (close_each drv _ _) as [[u|e] st3]; [|done].
  simpl in *. destruct Ht as [Hcalls _]. injection Hc as <-. simpl.
  rewrite Hcalls. by rewrite <- app_assoc.
Qed.

(** X21. In a reachable state with an empty cache,
    [disconnect_from_cassandra] raises without calling the driver and leaves
    the state as it is: the library's "There is no connection" exception
    when [self._connection] is still [None], the placeholder's error when a
    [close_all] has replaced it. *)
Theorem disconnect_on_empty_cache (st : State) :
  reachable st ->
  entries st = [] ->
  (_connection (self st) = PyNone
   /\ disconnect_from_cassandra st = (Raise (Exception no_connection_msg), st))
  \/ (_connection (self st) = NoConnectionObj
      /\ disconnect_from_cassandra st = (Raise (RuntimeError "No open connection."), st)).
Proof.
  intros Hr Hnil. apply reachable_consistent in Hr as Hc.
  pose proof (current_entry st Hc) as Hcur.
  destruct (current (_cache (self st))) as [s|].
  - destruct Hcur as [Hin _]. rewrite Hnil in Hin. by apply elem_of_nil in Hin.
  - destruct Hcur as [_ Hf]. rewrite disconnect_eq.
    destruct (_connection (self st)); [by left | by right | done].
Qed.

(** X22. The older copy has no guard at all: when [self._connection] is no
    session, its [execute_cql], [execute_async_cql] and
    [disconnect_from_cassandra] fail inside the attribute access, with an
    error that is not the library's own, where the current copy of the two
    execute keywords raises the library's exception.  Neither copy calls
    the driver or changes the state. *)
Theorem legacy_keywords_have_no_guard (st : State) (statement : string) :
  truthy (_connection (self st)) = false ->
  (exists e, legacy_execute_cql drv statement st = (Raise e, st)
             /\ raised_by_library e = false)
  /\ (exists e, legacy_execute_async_cql drv statement st = (Raise e, st)
                /\ raised_by_library e = false)
  /\ (exists e, legacy_disconnect_from_cassandra drv st = (Raise e, st)
                /\ raised_by_library e = false)
  /\ execute_cql statement st = (Raise (Exception no_connection_msg), st)
  /\ execute_async_cql statement st = (Raise (Exception no_connection_msg), st).
Proof.
  intros Hf.
  unfold legacy_execute_cql, legacy_execute_async_cql, legacy_disconnect_from_cassandra,
    execute_cql, execute_async_cql, bind, get, raise.
  destruct (_connection (self st)); [| |done]; repeat split; by eexists.
Qed.

(** X23. The [keyspace] property in a reachable state: with an empty cache
    it raises; with a current connection it returns the keyspace attribute
    of that session.  Either way it makes no driver call and changes
    nothing. *)
Theorem keyspace_property_reads_current (st : State) :
  reachable st ->
  (entries st = [] -> exists e, keyspace_property st = (Raise e, st))
  /\ (forall s, current (_cache (self st)) = Some s ->
        keyspace_property st = (Ok (session_keyspace (world st) s), st)).
Proof.
  intros Hr. apply reachable_consistent in Hr as Hc.
  pose proof (current_entry st Hc) as Hcur.
  unfold keyspace_property, bind, get, raise, ret. split.
  - intros Hnil. destruct (current (_cache (self st))) as [s|].
    + destruct Hcur as [Hin _]. rewrite Hnil in Hin. by apply elem_of_nil in Hin.
    + destruct Hcur as [_ Hf]. destruct (_connection (self st)); [by eexists..|done].
  - intros s Hs. rewrite Hs in Hcur. destruct Hcur as [_ ->]. done.
Qed.

End More.

(** ** Instances of the further properties *)

Lemma library_invariant_witness : consistent st_two.
Proof.
  apply (library_invariant (driver_ok two_rows) normalize_id py_int_digit).
  apply st_two_reachable.
Defined.

Lemma connect_becomes_current_witness :
  let st' := snd (connect_to_cassandra (driver_ok two_rows) normalize_id
                    (args "10.0.0.9" None) st_two) in
  (2 ∉ entries st_two)
  /\ entries st' = entries st_two ++ [2]
  /\ 3 = length (entries st')
  /\ entries st' !! (3 - 1) = Some 2
  /\ current_index (_cache (self st')) = Some 3
  /\ _connection (self st') = SessionRef 2
  /\ forall statement,
       calls (world (snd (execute_cql (driver_ok two_rows) statement st')))
       = calls (world st') ++ [CExecute 2 statement (Some 60%Z)].
Proof.
  apply (connect_becomes_current (driver_ok two_rows) normalize_id py_int_digit st_two _
           (args "10.0.0.9" None) 3).
  - apply st_two_reachable.
  - vm_compute. reflexivity.
Defined.

Lemma connect_failure_keeps_library_witness :
  let st' := snd (connect_to_cassandra driver_keyspace_fails normalize_id
                    (args_keyspace "10.0.0.1" "nope") init) in
  self st' = self init
  /\ shut_down (world st') = shut_down (world init)
  /\ raised_by_library
       (Exception "Connect to Cassandra error: Keyspace 'nope' does not exist") = true.
Proof.
  apply (connect_failure_keeps_library driver_keyspace_fails normalize_id init _
           (args_keyspace "10.0.0.1" "nope")).
  vm_compute. reflexivity.
Defined.

Lemma connect_keyspace_failure_leaks_session_witness :
  exists st',
    connect_to_cassandra driver_keyspace_fails normalize_id
      (args_keyspace "10.0.0.1" "nope") init
    = (Raise (Exception "Connect to Cassandra error: Keyspace 'nope' does not exist"), st')
    /\ self st' = self init
    /\ sessions_created (world st') = 1
    /\ calls (world st')
       = calls (world init) ++ [CConnect "10.0.0.1" (PStr "9042") None; CSetKeyspace 0 "nope"]
    /\ shut_down (world st') = shut_down (world init).
Proof.
  apply (connect_keyspace_failure_leaks_session driver_keyspace_fails normalize_id init
           (args_keyspace "10.0.0.1" "nope") "nope" "InvalidRequest"
           "Keyspace 'nope' does not exist" []); reflexivity.
Defined.

Lemma connect_driver_calls_witness :
  calls (world (snd (connect_to_cassandra driver_keyspace_fails normalize_id
                       (mkArgs "10.0.0.1" (PInt 9042) None (Some "nope") None "") init)))
  = calls (world init)
    ++ [CConnect "10.0.0.1" (PInt 9042) None; CSetKeyspace 0 "nope"].
Proof.
  apply (connect_driver_calls driver_keyspace_fails normalize_id init
           (mkArgs "10.0.0.1" (PInt 9042) None (Some "nope") None "") 9042).
  reflexivity.
Defined.

Lemma connect_ignores_password_without_username_witness :
  auth_provider (args_keyspace "10.0.0.1" "system") = None
  /\ connect_to_cassandra (driver_ok two_rows) normalize_id
       (mkArgs "10.0.0.1" (PStr "9042") None (Some "system") None "other") st_two
     = connect_to_cassandra (driver_ok two_rows) normalize_id
         (args_keyspace "10.0.0.1" "system") st_two.
Proof.
  apply (connect_ignores_password_without_username (driver_ok two_rows) normalize_id st_two
           (args_keyspace "10.0.0.1" "system") "other").
  left. reflexivity.
Defined.

Lemma entries_keep_their_index_witness :
  entries (snd (keyword (driver_ok two_rows) normalize_id py_int_digit
                  DisconnectFromCassandra st_two)) !! 1 = Some 1.
Proof.
  apply (entries_keep_their_index (driver_ok two_rows) normalize_id py_int_digit
           DisconnectFromCassandra st_two _ (Ok RNone)).
  - vm_compute. reflexivity.
  - discriminate.
  - vm_compute. reflexivity.
Defined.

Lemma aliases_keep_their_entry_witness :
  _aliases (_cache (self (snd (keyword (driver_ok two_rows) normalize_id py_int_digit
                                 (ConnectToCassandra (args "10.0.0.3" (Some "c3")))
                                 st_two)))) !! "c1" = Some 1.
Proof.
  apply (aliases_keep_their_entry (driver_ok two_rows) normalize_id py_int_digit
           (ConnectToCassandra (args "10.0.0.3" (Some "c3"))) st_two _ (Ok (RIndex 3))).
  - vm_compute. reflexivity.
  - discriminate.
  - intros a al j [= <-] _ [= <-]. discriminate.
  - vm_compute. reflexivity.
Defined.

Lemma switch_touches_only_current_witness :
  let st' := snd (switch_cassandra_connection normalize_id py_int_digit (KStr "c1") st_two) in
  world st' = world st_two
  /\ entries st' = entries st_two
  /\ _aliases (_cache (self st')) = _aliases (_cache (self st_two)).
Proof.
  apply (switch_touches_only_current normalize_id py_int_digit st_two _ (KStr "c1")
           (Ok (Some 2))).
  vm_compute. reflexivity.
Defined.

Lemma switch_round_trip_witness :
  exists i j,
    Some 2 = Some j
    /\ resolve_alias_or_index normalize_id py_int_digit (_cache (self st_two)) (KStr "c1")
       = Some i
    /\ switch_cassandra_connection normalize_id py_int_digit (KInt (Z.of_nat j))
         (snd (switch_cassandra_connection normalize_id py_int_digit (KStr "c1") st_two))
       = (Ok (Some i), st_two).
Proof.
  apply (switch_round_trip (driver_ok two_rows) normalize_id py_int_digit st_two _
           (KStr "c1") (Some 2)).
  - apply st_two_reachable.
  - vm_compute. reflexivity.
Defined.

Lemma switch_by_alias_or_its_index_witness :
  switch_cassandra_connection normalize_id py_int_digit (KStr "c1") st_two
  = switch_cassandra_connection normalize_id py_int_digit (KInt (Z.of_nat 1)) st_two.
Proof.
  apply (switch_by_alias_or_its_index (driver_ok two_rows) normalize_id py_int_digit
           st_two "c1" 1).
  - apply st_two_reachable.
  - vm_compute. reflexivity.
Defined.

Lemma execute_async_cql_forwards_witness :
  let st' := snd (execute_async_cql (driver_ok two_rows) "SELECT 1" st_two) in
  calls (world st') = calls (world st_two) ++ [CExecuteAsync 1 "SELECT 1"]
  /\ self st' = self st_two
  /\ fst (execute_async_cql (driver_ok two_rows) "SELECT 1" st_two)
     = Ok (futures_created (world st_two))
  /\ futures_created (world st') = S (futures_created (world st_two)).
Proof.
  apply (execute_async_cql_forwards (driver_ok two_rows) normalize_id py_int_digit
           st_two 1 "SELECT 1").
  - apply st_two_reachable.
  - vm_compute. reflexivity.
Defined.

Lemma get_async_result_any_state_witness :
  fst (get_async_result (driver_ok two_rows) 7 init) = Ok two_rows
  /\ calls (world (snd (get_async_result (driver_ok two_rows) 0
                          (snd (execute_async_cql (driver_ok two_rows) "SELECT 1" st_two)))))
     = calls (world st_two) ++ [CExecuteAsync 1 "SELECT 1"; CFutureResult 0].
Proof.
  split.
  - apply (get_async_result_any_state (driver_ok two_rows) init 7). reflexivity.
  - apply (get_async_result_any_state (driver_ok two_rows) _ 0).
    + vm_compute. reflexivity.
    + vm_compute. reflexivity.
Defined.

Lemma get_column_effect_is_execute_witness :
  fst (get_column (driver_ok two_rows) "keyspace_name" "SELECT 1" init)
  = Raise (Exception no_connection_msg).
Proof.
  apply (get_column_effect_is_execute (driver_ok two_rows) init "keyspace_name" "SELECT 1").
  reflexivity.
Defined.

Lemma get_column_returns_whole_column_witness :
  exists rows,
    execute_cql (driver_ok two_rows) "SELECT * FROM system.schema_keyspaces" st_two
    = (Ok rows,
       snd (get_column (driver_ok two_rows) "keyspace_name"
              "SELECT * FROM system.schema_keyspaces" st_two))
    /\ length ["test"; "OpsCenter"] = length rows
    /\ Forall2 (fun row v => exists x, getattr row "keyspace_name" = Some x /\ v = py_str x)
         rows ["test"; "OpsCenter"].
Proof.
  apply (get_column_returns_whole_column (driver_ok two_rows) st_two).
  - reflexivity.
  - vm_compute. reflexivity.
Defined.


Lemma close_all_shuts_every_entry_witness :
  let st' := snd (close_all_cassandra_connections (driver_ok two_rows) st_two) in
  self st' = mkSelf NoConnectionObj cache0
  /\ calls (world st') = calls (world st_two) ++ map CShutdown (entries st_two)
  /\ shut_down (world st') = rev (entries st_two) ++ shut_down (world st_two)
  /\ (forall s, s ∈ entries st_two -> s ∈ shut_down (world st')).
Proof.
  apply (close_all_shuts_every_entry (driver_ok two_rows) st_two).
  vm_compute. reflexivity.
Defined.


Lemma after_close_all_guards_differ_witness :
  let st' := snd (close_all_cassandra_connections (driver_ok two_rows) st_two) in
  execute_cql (driver_ok two_rows) "SELECT 1" st'
  = (Raise (Exception no_connection_msg), st')
  /\ execute_async_cql (driver_ok two_rows) "SELECT 1" st'
     = (Raise (Exception no_connection_msg), st')
  /\ disconnect_from_cassandra (driver_ok two_rows) st'
     = (Raise (RuntimeError "No open connection."), st')
  /\ keyspace_property keyspace_system st'
     = (Raise (RuntimeError "No open connection."), st').
Proof.
  apply (after_close_all_guards_differ (driver_ok two_rows) keyspace_system st_two).
  vm_compute. reflexivity.
Defined.

Lemma disconnect_then_close_all_witness :
  (1 ∈ entries st_two)
  /\ calls (world (snd (close_all_cassandra_connections (driver_ok two_rows)
                          (snd (disconnect_from_cassandra (driver_ok two_rows) st_two)))))
     = calls (world st_two) ++ CShutdown 1 :: map CShutdown (entries st_two).
Proof.
  apply (disconnect_then_close_all (driver_ok two_rows) normalize_id py_int_digit
           st_two (snd (disconnect_from_cassandra (driver_ok two_rows) st_two))).
  - apply st_two_reachable.
  - vm_compute. reflexivity.
  - vm_compute. reflexivity.
  - vm_compute. reflexivity.
Defined.

Lemma disconnect_on_empty_cache_witness :
  (_connection (self init) = PyNone
   /\ disconnect_from_cassandra (driver_ok two_rows) init
      = (Raise (Exception no_connection_msg), init))
  \/ (_connection (self init) = NoConnectionObj
      /\ disconnect_from_cassandra (driver_ok two_rows) init
         = (Raise (RuntimeError "No open connection."), init)).
Proof.
  apply (disconnect_on_empty_cache (driver_ok two_rows) normalize_id py_int_digit init).
  - exists []. reflexivity.
  - reflexivity.
Defined.

Lemma legacy_keywords_have_no_guard_witness :
  (exists e, legacy_execute_cql (driver_ok two_rows) "SELECT 1" init = (Raise e, init)
             /\ raised_by_library e = false)
  /\ (exists e, legacy_execute_async_cql (driver_ok two_rows) "SELECT 1" init = (Raise e, init)
                /\ raised_by_library e = false)
  /\ (exists e, legacy_disconnect_from_cassandra (driver_ok two_rows) init = (Raise e, init)
                /\ raised_by_library e = false)
  /\ execute_cql (driver_ok two_rows) "SELECT 1" init
     = (Raise (Exception no_connection_msg), init)
  /\ execute_async_cql (driver_ok two_rows) "SELECT 1" init
     = (Raise (Exception no_connection_msg), init).
Proof.
  apply (legacy_keywords_have_no_guard (driver_ok two_rows) init "SELECT 1").
  reflexivity.
Defined.

Lemma keyspace_property_reads_current_witness :
  keyspace_property keyspace_system st_two = (Ok (Some "system"), st_two).
Proof.
  apply (proj2 (keyspace_property_reads_current (driver_ok two_rows) normalize_id
                  py_int_digit keyspace_system st_two st_two_reachable) 1).
  vm_compute. reflexivity.
Defined.
